(** * The auction / bidding subsystem of solana-artisan-plaza

    A shallow embedding of [src/services/biddingService.ts] (class
    [BiddingService]) together with the three payment-adapter entry points of
    [src/services/solanaService.ts] it calls ([processBidPayment],
    [finalizeAuction], [refundBid]), and of what its callers compute from
    auctions: the countdown of [src/components/AuctionCard.tsx], the list
    filter of [src/pages/Auctions.tsx], the creator's list of
    [src/components/CreatorDashboard.tsx], and the favorites half of
    [src/services/favoritesService.ts], which the auction card uses.

    Modelling conventions.
    - A TypeScript [number] that carries an amount or an instant is a rational
      [Q].  The service compares such numbers ([<=], [>], [>=]) and tests them
      for truthiness, and on finite numbers these agree with the order of the
      rationals.  Where the source computes with them (the end of an auction
      in [createAuction], the countdown, the week of [getFavoriteStats])
      the model computes in [Q]; the source's doubles give the same sums,
      differences and products on whole numbers below [2^53], as instants in
      milliseconds and whole hours are, and rounded ones otherwise.  [NaN] is
      not represented: the one caller of [placeBid]
      ([AuctionCard.handlePlaceBid]) rejects it before the service is reached.
    - A JavaScript [Map] is an association list in insertion order
      ([JsMap]); [set] on a present key overwrites in place, on an absent key
      appends.
    - [crypto.randomUUID()] and [Date.now()] are inputs of the operation
      that consumes them, and so is what lies behind [processBidPayment]
      (the transaction library, the wallet and the network), as a function
      from the amount submitted to whether the transfer goes through.
    - [toast.error(..); return null/false] is a result [inl e], where [e] names
      the message; calls into [SolanaService] and the remaining toasts are
      recorded, in order, in the [effects] of the outcome.  Nothing in the
      modelled bodies throws, so the [catch] branches do not appear, and
      [console.log] is left out.
    - An [async] method runs without interruption between two [await]s; a
      call that nothing interleaves with is one function from store to
      outcome.  [placeBid] is also given in its two halves, before and after
      its [await], to state what interleaved calls do. *)

From Stdlib Require Import QArith Qround Lqa Sorted.
From stdpp Require Import base option list strings.

Open Scope string_scope.
Open Scope list_scope.

(** ** Numbers *)

Abbreviation number := Q.

(** [x <= y], [x > y], [x >= y] of the source. *)
Definition num_le (x y : number) : bool := Qle_bool x y.
Definition num_gt (x y : number) : bool := negb (Qle_bool x y).
Definition num_ge (x y : number) : bool := Qle_bool y x.

(** Truthiness of an optional number ([reservePrice?: number]): [undefined]
    and [0] are falsy. *)
Definition truthy (o : option number) : bool :=
  match o with
  | Some q => negb (Qeq_bool q 0)
  | None => false
  end.

(** ** JavaScript [Map] with string keys *)

Module JsMap.
Section JsMap.
Context {V : Type}.

Fixpoint get (k : string) (m : list (string * V)) : option V :=
  match m with
  | [] => None
  | (k', v) :: m' => if String.eqb k' k then Some v else get k m'
  end.

Fixpoint set (k : string) (v : V) (m : list (string * V)) : list (string * V) :=
  match m with
  | [] => [(k, v)]
  | (k', v') :: m' =>
      if String.eqb k' k then (k', v) :: m' else (k', v') :: set k v m'
  end.

(** In-place mutation of the object stored under [k]. *)
Fixpoint alter (f : V -> V) (k : string) (m : list (string * V)) : list (string * V) :=
  match m with
  | [] => []
  | (k', v) :: m' =>
      if String.eqb k' k then (k', f v) :: m' else (k', v) :: alter f k m'
  end.

Definition keys (m : list (string * V)) : list string := map fst m.
Definition values (m : list (string * V)) : list V := map snd m.
End JsMap.
End JsMap.

Arguments JsMap.keys {V} m : simpl never.
Arguments JsMap.values {V} m : simpl never.

(** ** Data model (the [Bid] and [Auction] interfaces) *)

Module Bid.
Inductive Status := active | won | outbid | cancelled.

Record t := mk {
  id : string;
  nftId : string;
  bidder : string;
  amount : number;
  timestamp : number;
  status : Status
}.

Definition is_active (b : t) : bool :=
  match status b with active => true | _ => false end.

(** [bid.status = s] *)
Definition set_status (s : Status) (b : t) : t :=
  mk (id b) (nftId b) (bidder b) (amount b) (timestamp b) s.
End Bid.

Module Auction.
Inductive Status := active | ended | cancelled.

Record t := mk {
  id : string;
  nftId : string;
  seller : string;
  startingPrice : number;
  currentPrice : number;
  reservePrice : option number;
  startTime : number;
  endTime : number;
  status : Status;
  highestBid : option Bid.t;
  totalBids : nat
}.

Definition is_active (a : t) : bool :=
  match status a with active => true | _ => false end.

(** [auction.status = s] *)
Definition set_status (s : Status) (a : t) : t :=
  mk (id a) (nftId a) (seller a) (startingPrice a) (currentPrice a)
     (reservePrice a) (startTime a) (endTime a) s (highestBid a) (totalBids a).

(** [auction.highestBid = hb; auction.currentPrice = p] *)
Definition set_highest (hb : option Bid.t) (p : number) (a : t) : t :=
  mk (id a) (nftId a) (seller a) (startingPrice a) p
     (reservePrice a) (startTime a) (endTime a) (status a) hb (totalBids a).

(** [auction.totalBids++] *)
Definition incr_totalBids (a : t) : t :=
  mk (id a) (nftId a) (seller a) (startingPrice a) (currentPrice a)
     (reservePrice a) (startTime a) (endTime a) (status a) (highestBid a)
     (S (totalBids a)).
End Auction.

(** The fields of [WalletContextState] the services read.  [publicKey] is kept
    as its [toString()]; [signTransaction] records whether the wallet offers
    the signing capability. *)
Record WalletContextState := {
  connected : bool;
  publicKey : option string;
  signTransaction : bool
}.

(** ** Results and effects *)

(** One constructor per [toast.error] message of [BiddingService]:
    - [WalletNotConnected]: "Please connect your wallet first"
    - [AuctionNotFound]: "Auction not found"
    - [AuctionNotActive]: "Auction is not active" ([placeBid], [endAuction]),
      "Cannot cancel bid on ended auction" ([cancelBid])
    - [AuctionExpired]: "Auction has ended"
    - [BidTooLow]: "Bid must be higher than current price of .. SOL"
    - [PaymentFailed]: "Failed to process bid payment"
    - [BidNotFound]: "Bid not found" *)
Inductive Error :=
  | WalletNotConnected | AuctionNotFound | AuctionNotActive | AuctionExpired
  | BidTooLow | PaymentFailed | BidNotFound.

Inductive Effect :=
  | CallProcessBidPayment (amount : number) (success : bool)
  | CallFinalizeAuction (auction : Auction.t)
  | CallRefundBid (bid : Bid.t)
  | ToastAuctionCreated
  | ToastBidPlaced (amount : number)
  | ToastEndedTransferred   (* "Auction ended successfully! NFT transferred to winner." *)
  | ToastEndedReserveNotMet (* "Auction ended. Reserve price not met - bid refunded." *)
  | ToastEndedNoBids        (* "Auction ended with no bids." *)
  | ToastBidCancelled.

(** ** SolanaService: the payment adapter *)

Module SolanaService.
(** [processBidPayment]: [false] without a public key or a signing
    capability; otherwise the result of its [try] block, which builds the
    transfer of [Math.round(amount * LAMPORTS_PER_SOL)] lamports to the
    escrow address, has the wallet sign it, sends it and awaits its
    confirmation.  The block runs in [@solana/web3.js], the wallet and the
    network; [confirmed amount] tells whether, for this amount, it reaches
    [return true].  Anything thrown on the way (an amount whose lamports
    cannot be encoded, a refused signature, a rejected or unconfirmed
    transaction) is caught there and yields [false]. *)
Definition processBidPayment (confirmed : number -> bool)
    (wallet : WalletContextState) (amount : number) : bool :=
  match publicKey wallet with
  | None => false
  | Some _ => if signTransaction wallet then confirmed amount else false
  end.

(** [finalizeAuction] and [refundBid] only log and return [true]. *)
Definition finalizeAuction (auction : Auction.t) : bool := true.
Definition refundBid (bid : Bid.t) : bool := true.
End SolanaService.

(** ** BiddingService *)

Module BiddingService.

(** The two static maps of the class. *)
Record Store := {
  auctions : list (string * Auction.t);
  bids : list (string * list Bid.t)
}.

Definition empty : Store := {| auctions := []; bids := [] |}.

(** What a call leaves behind: its return value ([inl e] for
    [toast.error] followed by [return null] / [return false]), the store and
    the effects it performed. *)
Record Outcome (A : Type) := {
  result : Error + A;
  store : Store;
  effects : list Effect
}.
Arguments result {A} _.
Arguments store {A} _.
Arguments effects {A} _.

Definition fail {A : Type} (e : Error) (st : Store) (fx : list Effect) : Outcome A :=
  {| result := inl e; store := st; effects := fx |}.

Definition succeeded {A : Type} (o : Outcome A) : bool :=
  match result o with inr _ => true | inl _ => false end.

(** [!wallet.connected || !wallet.publicKey] fails; otherwise the address
    [wallet.publicKey.toString()]. *)
Definition wallet_address (wallet : WalletContextState) : option string :=
  if negb (connected wallet) then None else publicKey wallet.

(** *** createAuction

    [endTime] is [now + durationHours * 60 * 60 * 1000] taken in [Q].  The
    source takes it in doubles: the same number for an instant in
    milliseconds and a whole number of hours, the rounded one for other
    durations.  The service reads [endTime] in one place, the comparison
    of [placeBid]. *)
Definition createAuction (uuid : string) (now : number)
    (wallet : WalletContextState) (nftId : string) (startingPrice : number)
    (durationHours : number) (reservePrice : option number) (st : Store)
    : Outcome Auction.t :=
  match wallet_address wallet with
  | None => fail WalletNotConnected st []
  | Some pk =>
      let auctionId := uuid in
      let endTime := (now + durationHours * 60 * 60 * 1000)%Q in
      let auction :=
        Auction.mk auctionId nftId pk startingPrice startingPrice reservePrice
                   now endTime Auction.active None 0 in
      {| result := inr auction;
         store := {| auctions := JsMap.set auctionId auction (auctions st);
                     bids := JsMap.set auctionId [] (bids st) |};
         effects := [ToastAuctionCreated] |}
  end.

(** *** placeBid

    The body runs without interruption up to
    [await SolanaService.processBidPayment(..)] ([placeBid_validate]) and
    resumes with the payment's result ([placeBid_commit]); [auction] is the
    object fetched during validation, still stored under [auctionId]. *)
Definition placeBid_validate (now : number) (wallet : WalletContextState)
    (auctionId : string) (bidAmount : number) (st : Store)
    : Error + (string * Auction.t) :=
  match wallet_address wallet with
  | None => inl WalletNotConnected
  | Some pk =>
      match JsMap.get auctionId (auctions st) with
      | None => inl AuctionNotFound
      | Some auction =>
          if negb (Auction.is_active auction) then inl AuctionNotActive
          else if num_gt now (Auction.endTime auction) then inl AuctionExpired
          else if num_le bidAmount (Auction.currentPrice auction) then inl BidTooLow
          else inr (pk, auction)
      end
  end.

Definition placeBid_commit (success : bool) (uuid : string) (now : number)
    (pk : string) (auction : Auction.t) (auctionId : string)
    (bidAmount : number) (st : Store) : Outcome Bid.t :=
  if negb success then
    fail PaymentFailed st [CallProcessBidPayment bidAmount success]
  else
    let bid :=
      Bid.mk uuid (Auction.nftId auction) pk bidAmount now Bid.active in
    let auctionBids := default [] (JsMap.get auctionId (bids st)) ++ [bid] in
    {| result := inr bid;
       store :=
         {| auctions :=
              JsMap.alter
                (fun a => Auction.incr_totalBids
                            (Auction.set_highest (Some bid) bidAmount a))
                auctionId (auctions st);
            bids := JsMap.set auctionId auctionBids (bids st) |};
       effects := [CallProcessBidPayment bidAmount success;
                   ToastBidPlaced bidAmount] |}.

(** A call of [placeBid] that nothing interleaves with.  [now] and [now']
    are the two readings of [Date.now()], [confirmed] tells for which amounts
    the escrow transfer goes through during this call, [uuid] is the bid's
    id. *)
Definition placeBid (now : number) (confirmed : number -> bool) (uuid : string)
    (now' : number) (wallet : WalletContextState) (auctionId : string)
    (bidAmount : number) (st : Store) : Outcome Bid.t :=
  match placeBid_validate now wallet auctionId bidAmount st with
  | inl e => fail e st []
  | inr (pk, auction) =>
      placeBid_commit
        (SolanaService.processBidPayment confirmed wallet bidAmount)
        uuid now' pk auction auctionId bidAmount st
  end.

(** *** endAuction *)
Definition reserve_met (auction : Auction.t) (highest : Bid.t) : bool :=
  truthy (Auction.reservePrice auction)
  && match Auction.reservePrice auction with
     | Some r => num_ge (Bid.amount highest) r
     | None => false
     end.

Definition endAuction (auctionId : string) (st : Store) : Outcome unit :=
  match JsMap.get auctionId (auctions st) with
  | None => fail AuctionNotFound st []
  | Some auction =>
      if negb (Auction.is_active auction) then fail AuctionNotActive st []
      else
        let auction' := Auction.set_status Auction.ended auction in
        let st' :=
          {| auctions :=
               JsMap.alter (Auction.set_status Auction.ended) auctionId
                           (auctions st);
             bids := bids st |} in
        {| result := inr tt;
           store := st';
           effects :=
             match Auction.highestBid auction' with
             | Some highest =>
                 if reserve_met auction' highest
                 then [CallFinalizeAuction auction'; ToastEndedTransferred]
                 else [CallRefundBid highest; ToastEndedReserveNotMet]
             | None => [ToastEndedNoBids]
             end |}
  end.

(** *** Read accessors *)
Definition getAuction (auctionId : string) (st : Store) : option Auction.t :=
  JsMap.get auctionId (auctions st).

Definition getActiveAuctions (st : Store) : list Auction.t :=
  List.filter Auction.is_active (JsMap.values (auctions st)).

Definition getAuctionBids (auctionId : string) (st : Store) : list Bid.t :=
  default [] (JsMap.get auctionId (bids st)).

Definition getAllAuctions (st : Store) : list Auction.t :=
  JsMap.values (auctions st).

(** [bid.bidder === userAddress && bid.status === "active"] *)
Definition is_user_bid (userAddress : string) (bid : Bid.t) : bool :=
  String.eqb (Bid.bidder bid) userAddress && Bid.is_active bid.

(** The loop of [getUserBids]: [userBids.push(...bids.filter(..))] for each
    bid list, in map order. *)
Definition getUserBids (userAddress : string) (st : Store) : list Bid.t :=
  fold_left
    (fun userBids bids => userBids ++ List.filter (is_user_bid userAddress) bids)
    (JsMap.values (bids st)) [].

(** *** cancelBid *)

(** [bid.id === bidId && bid.bidder === wallet.publicKey.toString()] *)
Definition is_own_bid (bidId pk : string) (bid : Bid.t) : bool :=
  String.eqb (Bid.id bid) bidId && String.eqb (Bid.bidder bid) pk.

(** [bids.find(pred)], with the position of the element found. *)
Fixpoint find_from (pred : Bid.t -> bool) (i : nat) (bs : list Bid.t)
    : option (nat * Bid.t) :=
  match bs with
  | [] => None
  | b :: bs' => if pred b then Some (i, b) else find_from pred (S i) bs'
  end.

(** The search loop over [this.bids.entries()]: the first entry whose list
    holds a match, with the key, the position and the bid. *)
Fixpoint find_bid (pred : Bid.t -> bool) (entries : list (string * list Bid.t))
    : option (string * nat * Bid.t) :=
  match entries with
  | [] => None
  | (auctionIdKey, bs) :: rest =>
      match find_from pred 0 bs with
      | Some (i, foundBid) => Some (auctionIdKey, i, foundBid)
      | None => find_bid pred rest
      end
  end.

(** [activeBids.reduce((prev, current) =>
      prev.amount > current.amount ? prev : current)] on a non-empty
    array whose first element is [first]. *)
Definition reduce_highest (first : Bid.t) (rest : list Bid.t) : Bid.t :=
  fold_left
    (fun prev current =>
       if num_gt (Bid.amount prev) (Bid.amount current) then prev else current)
    rest first.

(** The update of the auction once [foundBid] is cancelled:
    [auctionBids] is the bid list after the status change. *)
Definition recompute_highest (bidId : string) (auctionBids : list Bid.t)
    (auction : Auction.t) : Auction.t :=
  match Auction.highestBid auction with
  | Some highest =>
      if String.eqb (Bid.id highest) bidId then
        match List.filter Bid.is_active auctionBids with
        | first :: rest =>
            let newHighestBid := reduce_highest first rest in
            Auction.set_highest (Some newHighestBid) (Bid.amount newHighestBid)
                                auction
        | [] => Auction.set_highest None (Auction.startingPrice auction) auction
        end
      else auction
  | None => auction
  end.

Definition cancelBid (wallet : WalletContextState) (bidId : string)
    (st : Store) : Outcome unit :=
  match wallet_address wallet with
  | None => fail WalletNotConnected st []
  | Some pk =>
      match find_bid (is_own_bid bidId pk) (bids st) with
      | None => fail BidNotFound st []
      | Some (auctionId, i, foundBid) =>
          if String.eqb auctionId "" then fail BidNotFound st []
          else
            match JsMap.get auctionId (auctions st) with
            | None => fail AuctionNotActive st []
            | Some auction =>
                if negb (Auction.is_active auction)
                then fail AuctionNotActive st []
                else
                  let bids' :=
                    JsMap.alter
                      (fun bs => <[i := Bid.set_status Bid.cancelled foundBid]> bs)
                      auctionId (bids st) in
                  let auctionBids := default [] (JsMap.get auctionId bids') in
                  {| result := inr tt;
                     store :=
                       {| auctions :=
                            JsMap.alter (recompute_highest bidId auctionBids)
                                        auctionId (auctions st);
                          bids := bids' |};
                     effects := [CallRefundBid foundBid; ToastBidCancelled] |}
            end
      end
  end.

End BiddingService.

(** ** Sequences of operations

    A call of one of the four mutating operations, with the values the
    environment supplies to it. *)
Inductive Op :=
  | OpCreateAuction (uuid : string) (now : number) (wallet : WalletContextState)
      (nftId : string) (startingPrice durationHours : number)
      (reservePrice : option number)
  | OpPlaceBid (now : number) (confirmed : number -> bool) (uuid : string)
               (now' : number)
      (wallet : WalletContextState) (auctionId : string) (bidAmount : number)
  | OpEndAuction (auctionId : string)
  | OpCancelBid (wallet : WalletContextState) (bidId : string).

Definition step (op : Op) (st : BiddingService.Store) : BiddingService.Store :=
  match op with
  | OpCreateAuction uuid now wallet nftId startingPrice durationHours reservePrice =>
      BiddingService.store
        (BiddingService.createAuction uuid now wallet nftId startingPrice
                                      durationHours reservePrice st)
  | OpPlaceBid now confirmed uuid now' wallet auctionId bidAmount =>
      BiddingService.store
        (BiddingService.placeBid now confirmed uuid now' wallet auctionId
                                 bidAmount st)
  | OpEndAuction auctionId =>
      BiddingService.store (BiddingService.endAuction auctionId st)
  | OpCancelBid wallet bidId =>
      BiddingService.store (BiddingService.cancelBid wallet bidId st)
  end.

(** The calls of [ops], one after the other, none interleaved with another. *)
Definition run (ops : list Op) (st : BiddingService.Store) : BiddingService.Store :=
  fold_left (fun s op => step op s) ops st.

(** [currentPrice >= startingPrice] *)
Definition price_ok (a : Auction.t) : Prop :=
  (Auction.startingPrice a <= Auction.currentPrice a)%Q.

(** What sequences of calls maintain: each map holds a key once, every
    auction satisfies [price_ok], and no bid recorded for an auction is below
    its starting price. *)
Definition store_ok (st : BiddingService.Store) : Prop :=
  NoDup (JsMap.keys (BiddingService.auctions st)) /\
  NoDup (JsMap.keys (BiddingService.bids st)) /\
  forall k a, JsMap.get k (BiddingService.auctions st) = Some a ->
    price_ok a /\
    forall b, In b (BiddingService.getAuctionBids k st) ->
      (Auction.startingPrice a <= Bid.amount b)%Q.

(** In the source [auction.highestBid] and the auction's bid array share the
    bid object, which here is a value in both places.  The two stay in step:
    the highest bid is an element of the auction's bid list, still active, and
    its amount is the current price; without a highest bid the current price
    is the starting price (see [highestBid_in_step]). *)
Definition highest_coherent (st : BiddingService.Store) : Prop :=
  forall k a, JsMap.get k (BiddingService.auctions st) = Some a ->
    match Auction.highestBid a with
    | Some highest =>
        In highest (BiddingService.getAuctionBids k st) /\
        Bid.is_active highest = true /\
        Auction.currentPrice a = Bid.amount highest
    | None => Auction.currentPrice a = Auction.startingPrice a
    end.

(** ** Interleaved calls of [placeBid]

    A call is suspended at its [await] while the payment is confirmed, and
    other calls may run in the meantime.  [validate] is the part of a call
    before the suspension, [resume] the part after it. *)
Record BidCall := {
  call_now : number;
  call_confirmed : number -> bool;
  call_uuid : string;
  call_now' : number;
  call_wallet : WalletContextState;
  call_auctionId : string;
  call_bidAmount : number
}.

Definition validate (c : BidCall) (st : BiddingService.Store)
    : Error + (string * Auction.t) :=
  BiddingService.placeBid_validate (call_now c) (call_wallet c)
                                   (call_auctionId c) (call_bidAmount c) st.

Definition resume (c : BidCall) (validated : Error + (string * Auction.t))
    (st : BiddingService.Store) : BiddingService.Outcome Bid.t :=
  match validated with
  | inl e => BiddingService.fail e st []
  | inr (pk, auction) =>
      BiddingService.placeBid_commit
        (SolanaService.processBidPayment (call_confirmed c) (call_wallet c)
                                         (call_bidAmount c))
        (call_uuid c) (call_now' c) pk auction (call_auctionId c)
        (call_bidAmount c) st
  end.

(** Two calls that both validate against [st] before either resumes; [x]
    resumes first, then [y]. *)
Definition race (x y : BidCall) (st : BiddingService.Store)
    : BiddingService.Outcome Bid.t * BiddingService.Outcome Bid.t :=
  let vx := validate x st in
  let vy := validate y st in
  let ox := resume x vx st in
  let oy := resume y vy (BiddingService.store ox) in
  (ox, oy).

(** ** The bid chosen when the highest bid is cancelled *)

(** [nb] is an active bid of [bs] and no active bid of [bs] offers more. *)
Definition highest_active (bs : list Bid.t) (nb : Bid.t) : Prop :=
  In nb bs /\ Bid.is_active nb = true /\
  forall b, In b bs -> Bid.is_active b = true -> (Bid.amount b <= Bid.amount nb)%Q.

(** Among the active bids of [bs], in list order, [nb] is the first one
    with the greatest amount: those before it offer strictly less. *)
Definition first_encountered_maximum (bs : list Bid.t) (nb : Bid.t) : Prop :=
  exists l1 l2,
    List.filter Bid.is_active bs = l1 ++ nb :: l2 /\
    (forall b, In b l1 -> (Bid.amount b < Bid.amount nb)%Q) /\
    (forall b, In b l2 -> (Bid.amount b <= Bid.amount nb)%Q).

(** Among the active bids of [bs], in list order, [nb] is the last one
    with the greatest amount: those after it offer strictly less. *)
Definition last_encountered_maximum (bs : list Bid.t) (nb : Bid.t) : Prop :=
  exists l1 l2,
    List.filter Bid.is_active bs = l1 ++ nb :: l2 /\
    (forall b, In b l1 -> (Bid.amount b <= Bid.amount nb)%Q) /\
    (forall b, In b l2 -> (Bid.amount b < Bid.amount nb)%Q).

(** The relation between an auction and its bid list that calls keep when
    none interleaves with another: the highest bid is the active bid with the
    greatest amount and sets the current price; without a highest bid no bid
    is active and the current price is the starting price. *)
Definition highest_tracks_active (a : Auction.t) (bs : list Bid.t) : Prop :=
  match Auction.highestBid a with
  | Some highest =>
      highest_active bs highest /\ Auction.currentPrice a = Bid.amount highest
  | None =>
      List.filter Bid.is_active bs = [] /\
      Auction.currentPrice a = Auction.startingPrice a
  end.

(** The amounts of the active bids of a list grow strictly along the list. *)
Definition active_amounts_increase (bs : list Bid.t) : Prop :=
  StronglySorted (fun x y => (Bid.amount x < Bid.amount y)%Q)
                 (List.filter Bid.is_active bs).

(** The id a call of [createAuction] draws from [crypto.randomUUID()]. *)
Definition creates (op : Op) : option string :=
  match op with
  | OpCreateAuction uuid _ _ _ _ _ _ => Some uuid
  | _ => None
  end.

(** ** Callers of the bidding service *)

(** [CreatorDashboard.loadCreatorData]: the creator's active auctions,
    [BiddingService.getActiveAuctions().filter(a => a.seller === creatorAddress)]. *)
Definition creatorActiveAuctions (creatorAddress : string)
    (st : BiddingService.Store) : list Auction.t :=
  List.filter (fun auction => String.eqb (Auction.seller auction) creatorAddress)
              (BiddingService.getActiveAuctions st).

(** [Math.floor] *)
Definition js_floor (x : number) : Z := Qfloor x.

(** [a % b] on numbers: [a - b * trunc (a / b)], the remainder taking the
    sign of the dividend.  (The divisors below are non-zero constants.) *)
Definition js_trunc (x : number) : Z :=
  if Qle_bool 0 x then Qfloor x else (- Qfloor (- x))%Z.
Definition js_mod (a b : number) : number :=
  (a - b * inject_Z (js_trunc (a / b)))%Q.

(** What [AuctionCard] shows as time left: "Ended", "[days]d [hours]h",
    "[hours]h [minutes]m" or "[minutes]m". *)
Inductive TimeLeft :=
  | Ended
  | DaysHours (days hours : Z)
  | HoursMinutes (hours minutes : Z)
  | MinutesOnly (minutes : Z).

(** [AuctionCard.updateTimeLeft], with [now] the reading of [Date.now()]. *)
Definition updateTimeLeft (now : number) (auction : Auction.t) : TimeLeft :=
  let timeLeftMs := (Auction.endTime auction - now)%Q in
  if num_le timeLeftMs 0 then Ended
  else
    let days := js_floor (timeLeftMs / (1000 * 60 * 60 * 24)) in
    let hours :=
      js_floor (js_mod timeLeftMs (1000 * 60 * 60 * 24) / (1000 * 60 * 60)) in
    let minutes := js_floor (js_mod timeLeftMs (1000 * 60 * 60) / (1000 * 60)) in
    if (0 <? days)%Z then DaysHours days hours
    else if (0 <? hours)%Z then HoursMinutes hours minutes
    else MinutesOnly minutes.

(** ** The auctions page ([pages/Auctions.tsx])

    The list the page shows: the search filter, applied when the search term
    is not empty, then the status filter, applied unless it is "all".  The two
    string functions of the search are taken as they come
    ([toLowerCase s] for [s.toLowerCase()], [includes s t] for
    [s.includes(t)]). *)
Definition status_string (s : Auction.Status) : string :=
  match s with
  | Auction.active => "active"
  | Auction.ended => "ended"
  | Auction.cancelled => "cancelled"
  end.

Record AuctionWithNFT := {
  listed : Auction.t;
  nftImage : string;
  nftName : string;
  nftCreator : string
}.

Section AuctionsPage.
Variable toLowerCase : string -> string.
Variable includes : string -> string -> bool.

Definition matchesSearch (searchTerm : string) (auction : AuctionWithNFT) : bool :=
  includes (toLowerCase (nftName auction)) (toLowerCase searchTerm)
  || includes (toLowerCase (nftCreator auction)) (toLowerCase searchTerm)
  || includes (toLowerCase (Auction.id (listed auction))) (toLowerCase searchTerm)
  || includes (toLowerCase (Auction.seller (listed auction))) (toLowerCase searchTerm).

Definition filterAuctions (searchTerm filter : string)
    (auctions : list AuctionWithNFT) : list AuctionWithNFT :=
  let filtered :=
    if String.eqb searchTerm "" then auctions
    else List.filter (matchesSearch searchTerm) auctions in
  if negb (String.eqb filter "all") then
    List.filter
      (fun auction =>
         String.eqb (status_string (Auction.status (listed auction))) filter)
      filtered
  else filtered.
End AuctionsPage.

(** ** FavoritesService ([services/favoritesService.ts])

    The map [favorites] and the functions on it.  (The map [watchlists] has
    its own copy of the same functions, with [collectionId] for [nftId].) *)
Module FavoritesService.

Record FavoriteItem := {
  id : string;
  userAddress : string;
  nftId : string;
  addedAt : number
}.

Inductive Toast :=
  | ToastAlreadyFavorite  (* "NFT is already in your favorites" *)
  | ToastAdded            (* "Added to favorites!" *)
  | ToastNotInFavorites   (* "NFT not found in favorites" *)
  | ToastRemoved.         (* "Removed from favorites" *)

(** [fav.nftId === nftId] *)
Definition is_nft (nft : string) (fav : FavoriteItem) : bool :=
  String.eqb (nftId fav) nft.

Definition getUserFavorites (user : string)
    (favorites : list (string * list FavoriteItem)) : list FavoriteItem :=
  default [] (JsMap.get user favorites).

Definition isFavorited (user nft : string)
    (favorites : list (string * list FavoriteItem)) : bool :=
  existsb (is_nft nft) (default [] (JsMap.get user favorites)).

Definition addToFavorites (uuid : string) (now : number) (user nft : string)
    (favorites : list (string * list FavoriteItem))
    : bool * Toast * list (string * list FavoriteItem) :=
  let userFavorites := default [] (JsMap.get user favorites) in
  match List.find (is_nft nft) userFavorites with
  | Some existing => (false, ToastAlreadyFavorite, favorites)
  | None =>
      let favorite :=
        {| id := uuid; userAddress := user; nftId := nft; addedAt := now |} in
      (true, ToastAdded, JsMap.set user (userFavorites ++ [favorite]) favorites)
  end.

Definition removeFromFavorites (user nft : string)
    (favorites : list (string * list FavoriteItem))
    : bool * Toast * list (string * list FavoriteItem) :=
  let userFavorites := default [] (JsMap.get user favorites) in
  let filteredFavorites :=
    List.filter (fun fav => negb (String.eqb (nftId fav) nft)) userFavorites in
  if Nat.eqb (length filteredFavorites) (length userFavorites)
  then (false, ToastNotInFavorites, favorites)
  else (true, ToastRemoved, JsMap.set user filteredFavorites favorites).

(** [getFavoriteStats]: [(totalFavorites, recentFavorites)]. *)
Definition getFavoriteStats (now : number) (nft : string)
    (favorites : list (string * list FavoriteItem)) : nat * nat :=
  let oneWeekAgo := (now - 7 * 24 * 60 * 60 * 1000)%Q in
  fold_left
    (fun '(totalFavorites, recentFavorites) userFavorites =>
       match List.find (is_nft nft) userFavorites with
       | Some nftFavorite =>
           (S totalFavorites,
            if num_gt (addedAt nftFavorite) oneWeekAgo
            then S recentFavorites else recentFavorites)
       | None => (totalFavorites, recentFavorites)
       end)
    (JsMap.values favorites) (0%nat, 0%nat).

(** The counting loops of [getMostFavorited]:
    [favoriteCounts.set(nftId, (favoriteCounts.get(nftId) || 0) + 1)] for
    every favorite of every user. *)
Definition countFavorites (favorites : list (string * list FavoriteItem))
    : list (string * nat) :=
  fold_left
    (fun favoriteCounts userFavorites =>
       fold_left
         (fun counts favorite =>
            JsMap.set (nftId favorite)
                      (default 0%nat (JsMap.get (nftId favorite) counts) + 1)%nat
                      counts)
         userFavorites favoriteCounts)
    (JsMap.values favorites) [].

(** [.sort((a, b) => b.favorites - a.favorites)]: the stable sort into
    non-increasing order of [favorites]. *)
Fixpoint insert_by_count (x : string * nat) (sorted : list (string * nat))
    : list (string * nat) :=
  match sorted with
  | [] => [x]
  | y :: rest =>
      if (snd y <=? snd x)%nat then x :: y :: rest
      else y :: insert_by_count x rest
  end.

Definition sort_by_count (entries : list (string * nat)) : list (string * nat) :=
  fold_right insert_by_count [] entries.

(** [getMostFavorited(limit)], for a [limit] that is a natural number (10
    when omitted): pairs of [nftId] and [favorites]. *)
Definition getMostFavorited (limit : nat)
    (favorites : list (string * list FavoriteItem)) : list (string * nat) :=
  firstn limit (sort_by_count (countFavorites favorites)).

(** A call of one of the two mutating functions. *)
Inductive Op :=
  | OpAdd (uuid : string) (now : number) (user nft : string)
  | OpRemove (user nft : string).

Definition step (op : Op) (favorites : list (string * list FavoriteItem))
    : list (string * list FavoriteItem) :=
  match op with
  | OpAdd uuid now user nft => snd (addToFavorites uuid now user nft favorites)
  | OpRemove user nft => snd (removeFromFavorites user nft favorites)
  end.

Definition run (ops : list Op) (favorites : list (string * list FavoriteItem))
    : list (string * list FavoriteItem) :=
  fold_left (fun s op => step op s) ops favorites.

End FavoritesService.

(** ** Sample wallets and stores *)

(** Every escrow transfer goes through. *)
Definition confirms : number -> bool := fun _ => true.

Definition seller : WalletContextState :=
  {| connected := true; publicKey := Some "seller"; signTransaction := true |}.
Definition bob : WalletContextState :=
  {| connected := true; publicKey := Some "bob"; signTransaction := true |}.
Definition carol : WalletContextState :=
  {| connected := true; publicKey := Some "carol"; signTransaction := true |}.
Definition dave : WalletContextState :=
  {| connected := true; publicKey := Some "dave"; signTransaction := true |}.
Definition disconnected : WalletContextState :=
  {| connected := false; publicKey := None; signTransaction := false |}.

(** An auction "a1" for one day starting at 1.0, without reserve price. *)
Definition open_auction : list Op :=
  [OpCreateAuction "a1" 0 seller "nft1" 1 24 None].

(** Scenario A: a bid of 1.5 on it. *)
Definition scenario_A : BiddingService.Store :=
  run (open_auction ++ [OpPlaceBid 10 confirms "b1" 11 bob "a1" 1.5]) BiddingService.empty.

(** Scenario D: bids of 2.0 and 3.0, in this order. *)
Definition scenario_D : BiddingService.Store :=
  run (open_auction ++ [OpPlaceBid 10 confirms "b1" 11 bob "a1" 2;
                        OpPlaceBid 20 confirms "b2" 21 carol "a1" 3])
      BiddingService.empty.

(** The auction without reserve price, with a bid of 3.0 on it. *)
Definition bid_without_reserve : BiddingService.Store :=
  run (open_auction ++ [OpPlaceBid 10 confirms "b1" 11 bob "a1" 3]) BiddingService.empty.

(** The same, closed by [endAuction]. *)
Definition closed_auction : BiddingService.Store :=
  run [OpEndAuction "a1"] bid_without_reserve.

(** Scenarios B and C: an auction with reserve price 5.0 whose highest bid is
    3.0, respectively 6.0. *)
Definition scenario_B : BiddingService.Store :=
  run [OpCreateAuction "a2" 0 seller "nft2" 1 24 (Some 5%Q);
       OpPlaceBid 10 confirms "b1" 11 bob "a2" 3] BiddingService.empty.
Definition scenario_C : BiddingService.Store :=
  run [OpCreateAuction "a2" 0 seller "nft2" 1 24 (Some 5%Q);
       OpPlaceBid 10 confirms "b1" 11 bob "a2" 6] BiddingService.empty.

(** Scenario F: the price stands at 2.0 and two calls offer 3.0 and 3.1. *)
Definition price_two : BiddingService.Store :=
  run (open_auction ++ [OpPlaceBid 10 confirms "b1" 11 bob "a1" 2]) BiddingService.empty.
Definition offer_3_0 : BidCall :=
  {| call_now := 21; call_confirmed := confirms; call_uuid := "b30";
     call_now' := 25; call_wallet := carol; call_auctionId := "a1";
     call_bidAmount := 3 |}.
Definition offer_3_1 : BidCall :=
  {| call_now := 20; call_confirmed := confirms; call_uuid := "b31";
     call_now' := 24; call_wallet := dave; call_auctionId := "a1";
     call_bidAmount := 3.1 |}.

(** Two bids of 3.0 that both pass validation at price 1.0 before either
    is recorded, followed by a bid of 4.0. *)
Definition tied_bids : BiddingService.Store :=
  let st := run open_auction BiddingService.empty in
  let '(_, oy) :=
    race {| call_now := 10; call_confirmed := confirms; call_uuid := "b1";
            call_now' := 12; call_wallet := bob; call_auctionId := "a1";
            call_bidAmount := 3 |}
         {| call_now := 11; call_confirmed := confirms; call_uuid := "b2";
            call_now' := 13; call_wallet := carol; call_auctionId := "a1";
            call_bidAmount := 3 |}
         st in
  run [OpPlaceBid 20 confirms "b3" 21 dave "a1" 4] (BiddingService.store oy).

(** * Properties *)

(** ** Comparisons *)

Lemma num_le_true x y : num_le x y = true <-> (x <= y)%Q.
Proof. apply Qle_bool_iff. Qed.

Lemma num_le_false x y : num_le x y = false <-> (y < x)%Q.
Proof.
  unfold num_le. split; intros H.
  - apply Qnot_le_lt. intros Hle. apply Qle_bool_iff in Hle. congruence.
  - destruct (Qle_bool x y) eqn:E; [|reflexivity].
    apply Qle_bool_iff in E. lra.
Qed.

Lemma num_gt_true x y : num_gt x y = true <-> (y < x)%Q.
Proof.
  unfold num_gt. rewrite negb_true_iff. apply num_le_false.
Qed.

Lemma num_gt_false x y : num_gt x y = false <-> (x <= y)%Q.
Proof.
  unfold num_gt. rewrite negb_false_iff. apply num_le_true.
Qed.

Lemma num_ge_true x y : num_ge x y = true <-> (y <= x)%Q.
Proof. apply Qle_bool_iff. Qed.

(** ** The map operations *)

Section JsMapFacts.
Context {V : Type}.
Implicit Types (m : list (string * V)) (k : string) (v : V).

Lemma get_set m k k' v :
  JsMap.get k' (JsMap.set k v m) =
  if String.eqb k k' then Some v else JsMap.get k' m.
Proof.
  induction m as [|[k0 v0] m IH]; simpl.
  - destruct (String.eqb k k'); reflexivity.
  - destruct (String.eqb k0 k) eqn:E0; simpl.
    + apply String.eqb_eq in E0. subst k0.
      destruct (String.eqb k k'); reflexivity.
    + destruct (String.eqb k0 k') eqn:E1; [|exact IH].
      apply String.eqb_eq in E1. subst k0.
      rewrite String.eqb_sym, E0. reflexivity.
Qed.

Lemma get_alter (f : V -> V) m k k' :
  JsMap.get k' (JsMap.alter f k m) =
  if String.eqb k k' then f <$> JsMap.get k m else JsMap.get k' m.
Proof.
  induction m as [|[k0 v0] m IH]; simpl.
  - destruct (String.eqb k k'); reflexivity.
  - destruct (String.eqb k0 k) eqn:E0; simpl.
    + apply String.eqb_eq in E0. subst k0.
      destruct (String.eqb k k'); reflexivity.
    + destruct (String.eqb k0 k') eqn:E1.
      * apply String.eqb_eq in E1. subst k0.
        rewrite String.eqb_sym, E0. reflexivity.
      * exact IH.
Qed.

Lemma keys_alter (f : V -> V) m k : JsMap.keys (JsMap.alter f k m) = JsMap.keys m.
Proof.
  unfold JsMap.keys.
  induction m as [|[k0 v0] m IH]; simpl; [reflexivity|].
  destruct (String.eqb k0 k); simpl; [reflexivity|].
  rewrite IH. reflexivity.
Qed.

Lemma get_None_keys m k : JsMap.get k m = None <-> ~ In k (JsMap.keys m).
Proof.
  unfold JsMap.keys.
  induction m as [|[k0 v0] m IH]; simpl.
  - tauto.
  - destruct (String.eqb k0 k) eqn:E.
    + apply String.eqb_eq in E. split; [discriminate|]. intros H. destruct H. auto.
    + apply String.eqb_neq in E. rewrite IH. tauto.
Qed.

Lemma keys_set m k v :
  JsMap.keys (JsMap.set k v m) =
  match JsMap.get k m with
  | Some _ => JsMap.keys m
  | None => JsMap.keys m ++ [k]
  end.
Proof.
  unfold JsMap.keys.
  induction m as [|[k0 v0] m IH]; simpl; [reflexivity|].
  destruct (String.eqb k0 k) eqn:E; simpl; [reflexivity|].
  rewrite IH. destruct (JsMap.get k m); reflexivity.
Qed.

Lemma NoDup_keys_set m k v :
  NoDup (JsMap.keys m) -> NoDup (JsMap.keys (JsMap.set k v m)).
Proof.
  intros H. rewrite keys_set. destruct (JsMap.get k m) eqn:E; [exact H|].
  apply get_None_keys in E.
  apply NoDup_ListNoDup, List.NoDup_app.
  repeat split.
  - apply NoDup_ListNoDup, H.
  - apply NoDup_ListNoDup, NoDup_singleton.
  - intros x Hx [->|[]]. exact (E Hx).
Qed.

Lemma In_get m k v : NoDup (JsMap.keys m) -> In (k, v) m -> JsMap.get k m = Some v.
Proof.
  unfold JsMap.keys.
  induction m as [|[k0 v0] m IH]; simpl; [tauto|].
  intros Hnd [Heq|Hin].
  - inversion Heq; subst. rewrite String.eqb_refl. reflexivity.
  - apply NoDup_cons in Hnd as [Hk Hnd].
    destruct (String.eqb k0 k) eqn:E.
    + apply String.eqb_eq in E. subst k0. exfalso. apply Hk.
      apply list_elem_of_In. apply (in_map fst) in Hin. exact Hin.
    + auto.
Qed.

Lemma get_In m k v : JsMap.get k m = Some v -> In (k, v) m.
Proof.
  induction m as [|[k0 v0] m IH]; simpl; [discriminate|].
  destruct (String.eqb k0 k) eqn:E.
  - apply String.eqb_eq in E. intros [= ->]. subst. auto.
  - auto.
Qed.

End JsMapFacts.

(** ** The search and the recomputation of [cancelBid] *)

Import BiddingService.

Lemma find_from_Some pred n bs i b :
  find_from pred n bs = Some (i, b) ->
  exists j, i = (n + j)%nat /\ bs !! j = Some b /\ pred b = true /\
            forall j' b', (j' < j)%nat -> bs !! j' = Some b' -> pred b' = false.
Proof.
  revert n. induction bs as [|b0 bs IH]; simpl; intros n H; [discriminate|].
  destruct (pred b0) eqn:E.
  - injection H as <- <-. exists 0%nat. repeat split; auto with arith; try lia.
  - apply IH in H as (j & -> & Hj & Hp & Hbefore).
    exists (S j). repeat split; auto; try lia.
    intros [|j'] b' Hlt Hl; simpl in Hl.
    + congruence.
    + apply (Hbefore j'); auto with arith.
Qed.

Lemma find_from_None pred n bs :
  find_from pred n bs = None <-> forall b, In b bs -> pred b = false.
Proof.
  revert n. induction bs as [|b0 bs IH]; simpl; intros n.
  - split; [intros _ b []|reflexivity].
  - destruct (pred b0) eqn:E.
    + split; [discriminate|]. intros H. rewrite (H b0) in E; auto. discriminate.
    + rewrite IH. split.
      * intros H b [<-|Hin]; auto.
      * intros H b Hin. auto.
Qed.

Lemma find_bid_None pred entries :
  find_bid pred entries = None <->
  forall k bs b, In (k, bs) entries -> In b bs -> pred b = false.
Proof.
  induction entries as [|[k0 bs0] rest IH]; simpl.
  - split; [intros _ k bs b []|reflexivity].
  - destruct (find_from pred 0 bs0) as [[i b]|] eqn:E.
    + split; [discriminate|]. intros H.
      apply find_from_Some in E as (j & _ & Hj & Hp & _).
      rewrite (H k0 bs0 b) in Hp; [discriminate|auto|].
      apply list_elem_of_In. eapply list_elem_of_lookup_2, Hj.
    + rewrite IH. rewrite find_from_None in E. split.
      * intros H k bs b [[= <- <-]|Hin] Hb; eauto.
      * intros H k bs b Hin Hb. eauto.
Qed.

(** The entry the search stops at is the one [this.bids.get] returns for its
    key, a [Map] holding each key once. *)
Lemma find_bid_Some pred entries k i b :
  NoDup (JsMap.keys entries) ->
  find_bid pred entries = Some (k, i, b) ->
  exists bs, JsMap.get k entries = Some bs /\ bs !! i = Some b /\ pred b = true /\
             forall j' b', (j' < i)%nat -> bs !! j' = Some b' -> pred b' = false.
Proof.
  unfold JsMap.keys.
  induction entries as [|[k0 bs0] rest IH]; simpl; intros Hnd H; [discriminate|].
  apply NoDup_cons in Hnd as [Hk Hnd].
  destruct (find_from pred 0 bs0) as [[i0 b0]|] eqn:E.
  - injection H as <- <- <-. rewrite String.eqb_refl.
    apply find_from_Some in E as (j & -> & Hj & Hp & Hb). simpl.
    exists bs0. auto.
  - destruct (IH Hnd H) as (bs & Hget & Hrest).
    destruct (String.eqb k0 k) eqn:Ek.
    + apply String.eqb_eq in Ek. subst k0. exfalso. apply Hk.
      apply list_elem_of_In. apply get_In in Hget.
      apply (in_map fst) in Hget. exact Hget.
    + exists bs. auto.
Qed.

(** Without the uniqueness of keys, the search still returns a bid of some
    list of the map that passes the test. *)
Lemma find_bid_In pred entries k i b :
  find_bid pred entries = Some (k, i, b) ->
  exists bs, In (k, bs) entries /\ bs !! i = Some b /\ pred b = true.
Proof.
  induction entries as [|[k0 bs0] rest IH]; simpl; intros H; [discriminate|].
  destruct (find_from pred 0 bs0) as [[i0 b0]|] eqn:E.
  - injection H as <- <- <-.
    apply find_from_Some in E as (j & -> & Hj & Hp & _). simpl.
    exists bs0. auto.
  - destruct (IH H) as (bs & Hin & Hrest). exists bs. auto.
Qed.

Lemma is_own_bid_true bidId pk b :
  is_own_bid bidId pk b = true <-> Bid.id b = bidId /\ Bid.bidder b = pk.
Proof.
  unfold is_own_bid. rewrite andb_true_iff, !String.eqb_eq. reflexivity.
Qed.

Lemma reduce_highest_In first rest :
  In (reduce_highest first rest) (first :: rest).
Proof.
  unfold reduce_highest. revert first.
  induction rest as [|c rest IH]; simpl; intros first; [auto|].
  destruct (num_gt (Bid.amount first) (Bid.amount c)).
  - destruct (IH first) as [<-|Hin]; auto.
  - destruct (IH c) as [<-|Hin]; auto.
Qed.

Lemma In_insert (bs : list Bid.t) i x b :
  In b (<[i := x]> bs) -> b = x \/ In b bs.
Proof.
  revert i. induction bs as [|b0 bs IH]; intros [|i]; simpl; try tauto.
  - intros [<-|H]; auto.
  - intros [<-|H]; auto. destruct (IH _ H); auto.
Qed.

(** ** The price invariant *)

Lemma store_ok_empty : store_ok empty.
Proof.
  split; [apply NoDup_nil_2|]. split; [apply NoDup_nil_2|].
  intros k a. simpl. discriminate.
Qed.

Lemma store_ok_createAuction uuid now w nftId sp dh rp st :
  store_ok st -> store_ok (store (createAuction uuid now w nftId sp dh rp st)).
Proof.
  intros (Ha & Hb & H). unfold createAuction.
  destruct (wallet_address w) as [pk|]; simpl; [|exact (conj Ha (conj Hb H))].
  unfold store_ok; simpl.
  split; [apply NoDup_keys_set, Ha|]. split; [apply NoDup_keys_set, Hb|].
  intros k a. unfold getAuctionBids. simpl. rewrite !get_set.
  destruct (String.eqb uuid k).
  - intros [= <-]. simpl. split; [unfold price_ok; simpl; lra|]. intros b [].
  - intros Hk. apply (H k a Hk).
Qed.

Lemma placeBid_validate_inr now w aid amt st pk a :
  placeBid_validate now w aid amt st = inr (pk, a) ->
  wallet_address w = Some pk /\
  JsMap.get aid (auctions st) = Some a /\
  Auction.status a = Auction.active /\
  (now <= Auction.endTime a)%Q /\
  (Auction.currentPrice a < amt)%Q.
Proof.
  unfold placeBid_validate.
  destruct (wallet_address w) as [pk'|]; [|discriminate].
  destruct (JsMap.get aid (auctions st)) as [a'|]; [|discriminate].
  unfold Auction.is_active.
  destruct (Auction.status a') eqn:Es; simpl; try discriminate.
  destruct (num_gt now (Auction.endTime a')) eqn:Et; [discriminate|].
  destruct (num_le amt (Auction.currentPrice a')) eqn:Ep; [discriminate|].
  intros [= <- <-]. apply num_gt_false in Et. apply num_le_false in Ep. auto.
Qed.

Lemma store_ok_placeBid now c uuid now' w aid amt st :
  store_ok st -> store_ok (store (placeBid now c uuid now' w aid amt st)).
Proof.
  intros Hok. unfold placeBid.
  destruct (placeBid_validate now w aid amt st) as [e|[pk a]] eqn:Ev; [exact Hok|].
  apply placeBid_validate_inr in Ev as (_ & Hget & _ & _ & Hlt).
  destruct Hok as (Ha & Hb & H). unfold placeBid_commit.
  destruct (negb _); [exact (conj Ha (conj Hb H))|]. simpl.
  unfold store_ok; simpl.
  split; [rewrite keys_alter; exact Ha|]. split; [apply NoDup_keys_set, Hb|].
  intros k a'. unfold getAuctionBids. simpl. rewrite get_alter, get_set.
  destruct (String.eqb aid k) eqn:Ek.
  - apply String.eqb_eq in Ek. subst k. rewrite Hget. simpl. intros [= <-].
    destruct (H aid a Hget) as [Hp Hbids]. unfold price_ok in *. simpl.
    split; [lra|]. intros b Hin. apply in_app_or in Hin as [Hin|[<-|[]]].
    + apply Hbids, Hin.
    + simpl. lra.
  - intros Hk. apply (H k a' Hk).
Qed.

Lemma store_ok_endAuction aid st :
  store_ok st -> store_ok (store (endAuction aid st)).
Proof.
  intros Hok. unfold endAuction.
  destruct (JsMap.get aid (auctions st)) as [a|] eqn:Hget; [|exact Hok].
  destruct (negb (Auction.is_active a)); [exact Hok|]. simpl.
  destruct Hok as (Ha & Hb & H).
  unfold store_ok; simpl.
  split; [rewrite keys_alter; exact Ha|]. split; [exact Hb|].
  intros k a'. unfold getAuctionBids. simpl. rewrite get_alter.
  destruct (String.eqb aid k) eqn:Ek.
  - apply String.eqb_eq in Ek. subst k. rewrite Hget. simpl. intros [= <-].
    apply (H aid a Hget).
  - intros Hk. apply (H k a' Hk).
Qed.

Lemma recompute_highest_startingPrice bidId bs a :
  Auction.startingPrice (recompute_highest bidId bs a) = Auction.startingPrice a.
Proof.
  unfold recompute_highest.
  destruct (Auction.highestBid a) as [hb|]; [|reflexivity].
  destruct (String.eqb (Bid.id hb) bidId); [|reflexivity].
  destruct (List.filter Bid.is_active bs); reflexivity.
Qed.

Lemma recompute_highest_price_ok bidId bs a :
  price_ok a ->
  (forall b, In b bs -> (Auction.startingPrice a <= Bid.amount b)%Q) ->
  price_ok (recompute_highest bidId bs a).
Proof.
  intros Hp Hbs. unfold recompute_highest.
  destruct (Auction.highestBid a) as [hb|]; [|exact Hp].
  destruct (String.eqb (Bid.id hb) bidId); [|exact Hp].
  destruct (List.filter Bid.is_active bs) as [|first rest] eqn:Ef;
    unfold price_ok; simpl; [lra|].
  apply Hbs.
  pose proof (reduce_highest_In first rest) as Hin. rewrite <- Ef in Hin.
  apply filter_In in Hin. tauto.
Qed.

Lemma store_ok_cancelBid w bidId st :
  store_ok st -> store_ok (store (cancelBid w bidId st)).
Proof.
  intros Hok. unfold cancelBid.
  destruct (wallet_address w) as [pk|]; [|exact Hok].
  destruct (find_bid _ (bids st)) as [[[aid i] fb]|] eqn:Ef; [|exact Hok].
  destruct (String.eqb aid ""); [exact Hok|].
  destruct (JsMap.get aid (auctions st)) as [a|] eqn:Hget; [|exact Hok].
  destruct (negb (Auction.is_active a)); [exact Hok|].
  destruct Hok as (Ha & Hb & H).
  apply find_bid_Some in Ef as (bs & Hbs & Hi & _); [|exact Hb].
  cbn [store].
  set (bids' := JsMap.alter _ aid (bids st)).
  assert (Hnew : forall b, In b (default [] (JsMap.get aid bids')) ->
                           (Auction.startingPrice a <= Bid.amount b)%Q).
  { intros b. subst bids'. rewrite get_alter, String.eqb_refl, Hbs. simpl.
    intros Hin. destruct (H aid a Hget) as [_ Hbids].
    unfold getAuctionBids in Hbids. rewrite Hbs in Hbids. simpl in Hbids.
    apply In_insert in Hin as [->|Hin]; [|auto]. simpl.
    apply Hbids, list_elem_of_In. eapply list_elem_of_lookup_2, Hi. }
  unfold store_ok. cbn [auctions bids].
  split; [rewrite keys_alter; exact Ha|].
  split; [subst bids'; rewrite keys_alter; exact Hb|].
  intros k a'. unfold getAuctionBids. cbn [bids]. rewrite get_alter.
  destruct (String.eqb aid k) eqn:Ek.
  - apply String.eqb_eq in Ek. subst k. rewrite Hget. simpl. intros [= <-].
    split.
    + apply recompute_highest_price_ok; [apply (H aid a Hget)|exact Hnew].
    + rewrite recompute_highest_startingPrice. exact Hnew.
  - intros Hk. subst bids'. rewrite get_alter, Ek. apply (H k a' Hk).
Qed.

Lemma store_ok_step op st : store_ok st -> store_ok (step op st).
Proof.
  destruct op; simpl.
  - apply store_ok_createAuction.
  - apply store_ok_placeBid.
  - apply store_ok_endAuction.
  - apply store_ok_cancelBid.
Qed.

Lemma store_ok_run ops st : store_ok st -> store_ok (run ops st).
Proof.
  unfold run. revert st.
  induction ops as [|op ops IH]; simpl; intros st H; [exact H|].
  apply IH, store_ok_step, H.
Qed.

(** C2. After any sequence of [createAuction], [placeBid], [endAuction] and
    [cancelBid] calls on the initially empty store, every auction of
    [getAllAuctions] has [currentPrice >= startingPrice]. *)
Theorem currentPrice_ge_startingPrice (ops : list Op) :
  Forall price_ok (getAllAuctions (run ops empty)).
Proof.
  destruct (store_ok_run ops empty store_ok_empty) as (Ha & _ & H).
  apply List.Forall_forall. intros a Hin.
  unfold getAllAuctions, JsMap.values in Hin.
  apply in_map_iff in Hin as ([k a'] & <- & Hin). simpl.
  apply (H k a'). apply In_get; assumption.
Qed.

(** ** placeBid *)

Lemma placeBid_validate_inl now w aid amt st e :
  placeBid_validate now w aid amt st = inl e ->
  (e = WalletNotConnected /\ wallet_address w = None) \/
  (e = AuctionNotFound /\ JsMap.get aid (auctions st) = None) \/
  (exists a, JsMap.get aid (auctions st) = Some a /\
     ((e = AuctionNotActive /\ Auction.status a <> Auction.active) \/
      (e = AuctionExpired /\ (Auction.endTime a < now)%Q) \/
      (e = BidTooLow /\ wallet_address w <> None /\
       Auction.status a = Auction.active /\
       (now <= Auction.endTime a)%Q /\ (amt <= Auction.currentPrice a)%Q))).
Proof.
  unfold placeBid_validate.
  destruct (wallet_address w) as [pk|]; [|intros [= <-]; auto].
  destruct (JsMap.get aid (auctions st)) as [a|]; [|intros [= <-]; auto].
  intros H. right. right. exists a. split; [reflexivity|].
  unfold Auction.is_active in H.
  destruct (Auction.status a) eqn:Es; simpl in H;
    try (injection H as <-; left; split; [reflexivity|discriminate]).
  destruct (num_gt now (Auction.endTime a)) eqn:Et.
  { injection H as <-. apply num_gt_true in Et. auto. }
  destruct (num_le amt (Auction.currentPrice a)) eqn:Ep; [|discriminate].
  injection H as <-. apply num_gt_false in Et. apply num_le_true in Ep.
  right. right. split; [reflexivity|]. split; [discriminate|]. auto.
Qed.

(** C4. A call of [placeBid] that returns no bid leaves the store exactly as
    it found it, and it failed for one of six reasons: no connected wallet,
    unknown auction, auction not active, auction expired, bid not above the
    current price, or the escrow payment reporting failure.  ([placeBid] is a
    total function: every call returns an outcome.) *)
Theorem placeBid_failure_atomic now confirmed uuid now' wallet auctionId bidAmount st e :
  result (placeBid now confirmed uuid now' wallet auctionId bidAmount st) = inl e ->
  store (placeBid now confirmed uuid now' wallet auctionId bidAmount st) = st /\
  ((e = WalletNotConnected /\ wallet_address wallet = None) \/
   (e = AuctionNotFound /\ JsMap.get auctionId (auctions st) = None) \/
   (exists a, JsMap.get auctionId (auctions st) = Some a /\
      ((e = AuctionNotActive /\ Auction.status a <> Auction.active) \/
       (e = AuctionExpired /\ (Auction.endTime a < now)%Q) \/
       (e = BidTooLow /\ (bidAmount <= Auction.currentPrice a)%Q))) \/
   (e = PaymentFailed /\
    SolanaService.processBidPayment confirmed wallet bidAmount = false)).
Proof.
  unfold placeBid.
  destruct (placeBid_validate now wallet auctionId bidAmount st)
    as [e'|[pk a]] eqn:Ev; simpl.
  - intros [= <-]. split; [reflexivity|].
    apply placeBid_validate_inl in Ev
      as [?|[?|(a & Ha & [?|[?|(? & _ & _ & _ & ?)]])]]; eauto 10.
  - unfold placeBid_commit.
    destruct (SolanaService.processBidPayment confirmed wallet bidAmount);
      simpl; [discriminate|].
    intros [= <-]. auto 10.
Qed.

(** C5. On an existing auction, [placeBid] answers "bid too low" exactly when
    the earlier checks pass and the offer is less than or equal to the current
    price; and a bid it returns carries the offered amount, which is strictly
    above the current price before the call and is the current price after. *)
Theorem placeBid_strictly_higher now confirmed uuid now' wallet auctionId bidAmount st a :
  JsMap.get auctionId (auctions st) = Some a ->
  (result (placeBid now confirmed uuid now' wallet auctionId bidAmount st)
     = inl BidTooLow <->
   wallet_address wallet <> None /\ Auction.status a = Auction.active /\
   (now <= Auction.endTime a)%Q /\ (bidAmount <= Auction.currentPrice a)%Q) /\
  (forall bid,
     result (placeBid now confirmed uuid now' wallet auctionId bidAmount st)
       = inr bid ->
     Bid.amount bid = bidAmount /\
     (Auction.currentPrice a < Bid.amount bid)%Q /\
     exists a',
       JsMap.get auctionId
         (auctions (store (placeBid now confirmed uuid now' wallet auctionId
                                    bidAmount st))) = Some a' /\
       Auction.currentPrice a' = Bid.amount bid /\
       Auction.highestBid a' = Some bid).
Proof.
  intros Hget. unfold placeBid.
  destruct (placeBid_validate now wallet auctionId bidAmount st)
    as [e|[pk a0]] eqn:Ev; simpl.
  - split; [|discriminate].
    apply placeBid_validate_inl in Ev
      as [[-> Hw]|[[-> Hn]|(a1 & Ha1 & Hcase)]].
    + split; [discriminate|]. intros [Hw' _]. contradiction.
    + congruence.
    + assert (a1 = a) as -> by congruence.
      destruct Hcase as [[-> Hs]|[[-> Ht]|(-> & Hw & Hs & Ht & Hp)]].
      * split; [discriminate|]. intros (_ & Hs' & _). contradiction.
      * split; [discriminate|]. intros (_ & _ & Ht' & _). lra.
      * split; [|reflexivity]. auto.
  - apply placeBid_validate_inr in Ev as (Hw & Hget' & Hs & Ht & Hp).
    assert (a0 = a) as -> by congruence.
    unfold placeBid_commit.
    destruct (SolanaService.processBidPayment confirmed wallet bidAmount); simpl.
    + split.
      * split; [discriminate|]. intros (_ & _ & _ & Hle). lra.
      * intros bid [= <-]. simpl. split; [reflexivity|]. split; [exact Hp|].
        rewrite get_alter, String.eqb_refl, Hget. simpl. eauto.
    + split; [|discriminate].
      split; [discriminate|]. intros (_ & _ & _ & Hle). lra.
Qed.

Lemma placeBid_failure_atomic_witness :
  store (placeBid 20 confirms "b2" 21 carol "a1" 1.2 scenario_A) = scenario_A.
Proof.
  exact (proj1 (placeBid_failure_atomic 20 confirms "b2" 21 carol "a1" 1.2
                  scenario_A BidTooLow eq_refl)).
Defined.

Lemma placeBid_strictly_higher_witness :
  exists bid a',
    result (placeBid 20 confirms "b2" 21 carol "a1" 2 scenario_A) = inr bid /\
    JsMap.get "a1"
      (auctions (store (placeBid 20 confirms "b2" 21 carol "a1" 2 scenario_A)))
      = Some a' /\
    Auction.currentPrice a' = Bid.amount bid /\
    (1.5 < Bid.amount bid)%Q.
Proof.
  eexists. 
  destruct (proj2 (placeBid_strictly_higher 20 confirms "b2" 21 carol "a1" 2
                     scenario_A _ eq_refl) _ eq_refl)
    as (_ & Hlt & a' & Hget & Hcp & _).
  exists a'. split; [reflexivity|]. split; [exact Hget|]. split; [exact Hcp|].
  exact Hlt.
Defined.

(** ** Terminal auctions *)

Lemma placeBid_not_active now c uuid now' w aid amt st a :
  JsMap.get aid (auctions st) = Some a ->
  Auction.status a <> Auction.active ->
  succeeded (placeBid now c uuid now' w aid amt st) = false /\
  store (placeBid now c uuid now' w aid amt st) = st.
Proof.
  intros Hget Hs. unfold placeBid, placeBid_validate.
  destruct (wallet_address w); [|auto]. rewrite Hget.
  unfold Auction.is_active. destruct (Auction.status a); simpl; auto.
  contradiction.
Qed.

Lemma endAuction_not_active aid st a :
  JsMap.get aid (auctions st) = Some a ->
  Auction.status a <> Auction.active ->
  endAuction aid st = fail AuctionNotActive st [].
Proof.
  intros Hget Hs. unfold endAuction. rewrite Hget.
  unfold Auction.is_active. destruct (Auction.status a); simpl; auto.
  contradiction.
Qed.

Lemma cancelBid_not_active w bidId st pk aid i fb a :
  wallet_address w = Some pk ->
  find_bid (is_own_bid bidId pk) (bids st) = Some (aid, i, fb) ->
  JsMap.get aid (auctions st) = Some a ->
  Auction.status a <> Auction.active ->
  succeeded (cancelBid w bidId st) = false /\ store (cancelBid w bidId st) = st.
Proof.
  intros Hw Hf Hget Hs. unfold cancelBid. rewrite Hw, Hf, Hget.
  destruct (String.eqb aid ""); [auto|].
  unfold Auction.is_active. destruct (Auction.status a); simpl; auto.
  contradiction.
Qed.

(** A call leaves untouched every auction that is not active, and its bid
    list, unless it is a [createAuction] that draws that auction's id anew. *)
Lemma step_keeps_terminal op st aid a :
  JsMap.get aid (auctions st) = Some a ->
  Auction.status a <> Auction.active ->
  creates op <> Some aid ->
  JsMap.get aid (auctions (step op st)) = Some a /\
  JsMap.get aid (bids (step op st)) = JsMap.get aid (bids st).
Proof.
  intros Hget Hs Hc.
  destruct op as [uuid now w nftId sp dh rp|now c uuid now' w aid' amt|aid'|w bidId];
    simpl in *.
  - unfold createAuction. destruct (wallet_address w); simpl; [|auto].
    rewrite !get_set. destruct (String.eqb uuid aid) eqn:E; [|auto].
    apply String.eqb_eq in E. congruence.
  - destruct (String.eqb aid' aid) eqn:E.
    + apply String.eqb_eq in E. subst aid'.
      destruct (placeBid_not_active now c uuid now' w aid amt st a Hget Hs)
        as [_ ->]. auto.
    + unfold placeBid.
      destruct (placeBid_validate now w aid' amt st) as [e|[pk a0]]; simpl; [auto|].
      unfold placeBid_commit. destruct (negb _); simpl; [auto|].
      rewrite get_alter, get_set, E. auto.
  - destruct (String.eqb aid' aid) eqn:E.
    + apply String.eqb_eq in E. subst aid'.
      rewrite (endAuction_not_active aid st a Hget Hs). auto.
    + unfold endAuction.
      destruct (JsMap.get aid' (auctions st)) as [a0|]; simpl; [|auto].
      destruct (negb (Auction.is_active a0)); simpl; [auto|].
      rewrite get_alter, E. auto.
  - destruct (wallet_address w) as [pk|] eqn:Hw;
      [|unfold cancelBid; rewrite Hw; auto].
    destruct (find_bid (is_own_bid bidId pk) (bids st)) as [[[k i] fb]|] eqn:Hf;
      [|unfold cancelBid; rewrite Hw, Hf; auto].
    destruct (String.eqb k aid) eqn:E.
    + apply String.eqb_eq in E. subst k.
      destruct (cancelBid_not_active w bidId st pk aid i fb a Hw Hf Hget Hs)
        as [_ ->]. auto.
    + unfold cancelBid. rewrite Hw, Hf.
      destruct (String.eqb k ""); simpl; [auto|].
      destruct (JsMap.get k (auctions st)) as [a0|]; simpl; [|auto].
      destruct (negb (Auction.is_active a0)); simpl; [auto|].
      rewrite !get_alter, E. auto.
Qed.

(** C3. An auction whose status is [ended] or [cancelled] stays as it is:
    [placeBid] and [endAuction] on it fail and leave the store unchanged, so
    does a [cancelBid] whose bid belongs to it, and after any further calls
    (none of them a [createAuction] drawing the same id again) the auction
    record, hence its status, and its bid list are what they were. *)
Theorem terminal_auction_frozen st auctionId a :
  JsMap.get auctionId (auctions st) = Some a ->
  Auction.status a <> Auction.active ->
  (forall now confirmed uuid now' wallet bidAmount,
     succeeded (placeBid now confirmed uuid now' wallet auctionId bidAmount st)
       = false /\
     store (placeBid now confirmed uuid now' wallet auctionId bidAmount st) = st) /\
  (succeeded (endAuction auctionId st) = false /\
   store (endAuction auctionId st) = st) /\
  (forall wallet bidId pk i foundBid,
     wallet_address wallet = Some pk ->
     find_bid (is_own_bid bidId pk) (bids st) = Some (auctionId, i, foundBid) ->
     succeeded (cancelBid wallet bidId st) = false /\
     store (cancelBid wallet bidId st) = st) /\
  (forall ops,
     Forall (fun op => creates op <> Some auctionId) ops ->
     JsMap.get auctionId (auctions (run ops st)) = Some a /\
     getAuctionBids auctionId (run ops st) = getAuctionBids auctionId st).
Proof.
  intros Hget Hs. split; [|split; [|split]].
  - intros. eapply placeBid_not_active; eassumption.
  - rewrite (endAuction_not_active auctionId st a Hget Hs). auto.
  - intros. eapply cancelBid_not_active; eassumption.
  - intros ops. unfold run, getAuctionBids. revert st Hget.
    induction ops as [|op ops IH]; simpl; intros st Hget Hops; [auto|].
    apply Forall_cons in Hops as [Hop Hops].
    destruct (step_keeps_terminal op st auctionId a Hget Hs Hop) as [Hget' Hb].
    rewrite <- Hb. apply IH; assumption.
Qed.

Lemma terminal_auction_frozen_witness :
  succeeded (placeBid 30 confirms "b2" 31 carol "a1" 4 closed_auction) = false /\
  store (placeBid 30 confirms "b2" 31 carol "a1" 4 closed_auction) = closed_auction.
Proof.
  refine (proj1 (terminal_auction_frozen closed_auction "a1" _ eq_refl _)
            30%Q confirms "b2" 31%Q carol 4%Q).
  intros H. vm_compute in H. discriminate H.
Defined.

(** ** cancelBid *)

(** The outcome of a call that passes every check. *)
Lemma cancelBid_success w bidId st pk aid i fb a :
  wallet_address w = Some pk ->
  find_bid (is_own_bid bidId pk) (bids st) = Some (aid, i, fb) ->
  aid <> "" ->
  JsMap.get aid (auctions st) = Some a ->
  Auction.status a = Auction.active ->
  result (cancelBid w bidId st) = inr tt /\
  effects (cancelBid w bidId st) = [CallRefundBid fb; ToastBidCancelled] /\
  bids (store (cancelBid w bidId st)) =
    JsMap.alter (fun bs => <[i := Bid.set_status Bid.cancelled fb]> bs)
                aid (bids st) /\
  auctions (store (cancelBid w bidId st)) =
    JsMap.alter
      (recompute_highest bidId
         (getAuctionBids aid (store (cancelBid w bidId st))))
      aid (auctions st).
Proof.
  intros Hw Hf Hne Hget Hs. unfold cancelBid. rewrite Hw, Hf, Hget.
  apply String.eqb_neq in Hne. rewrite Hne.
  unfold Auction.is_active. rewrite Hs. simpl. auto.
Qed.

Lemma cancelBid_success_auction w bidId st pk aid i fb a :
  wallet_address w = Some pk ->
  find_bid (is_own_bid bidId pk) (bids st) = Some (aid, i, fb) ->
  aid <> "" ->
  JsMap.get aid (auctions st) = Some a ->
  Auction.status a = Auction.active ->
  JsMap.get aid (auctions (store (cancelBid w bidId st))) =
    Some (recompute_highest bidId
            (getAuctionBids aid (store (cancelBid w bidId st))) a).
Proof.
  intros Hw Hf Hne Hget Hs.
  destruct (cancelBid_success w bidId st pk aid i fb a Hw Hf Hne Hget Hs)
    as (_ & _ & _ & ->).
  rewrite get_alter, String.eqb_refl, Hget. reflexivity.
Qed.

Lemma cancelBid_success_bids w bidId st pk aid i fb a bs :
  wallet_address w = Some pk ->
  find_bid (is_own_bid bidId pk) (bids st) = Some (aid, i, fb) ->
  aid <> "" ->
  JsMap.get aid (auctions st) = Some a ->
  Auction.status a = Auction.active ->
  JsMap.get aid (bids st) = Some bs ->
  getAuctionBids aid (store (cancelBid w bidId st)) =
    <[i := Bid.set_status Bid.cancelled fb]> bs.
Proof.
  intros Hw Hf Hne Hget Hs Hbs. unfold getAuctionBids.
  destruct (cancelBid_success w bidId st pk aid i fb a Hw Hf Hne Hget Hs)
    as (_ & _ & -> & _).
  rewrite get_alter, String.eqb_refl, Hbs. reflexivity.
Qed.

Lemma filter_active_insert_sole (bs : list Bid.t) i fb x :
  bs !! i = Some fb ->
  List.filter Bid.is_active bs = [fb] ->
  Bid.is_active x = false ->
  List.filter Bid.is_active (<[i := x]> bs) = [].
Proof.
  revert i. induction bs as [|b0 bs IH]; intros i Hi Hf Hx; [discriminate|].
  assert (Hact : Bid.is_active fb = true).
  { assert (Hin : In fb (List.filter Bid.is_active (b0 :: bs)))
      by (rewrite Hf; simpl; auto).
    apply filter_In in Hin. tauto. }
  simpl in Hf. destruct i as [|i]; simpl in *.
  - injection Hi as ->. rewrite Hx. rewrite Hact in Hf. congruence.
  - destruct (Bid.is_active b0).
    + exfalso. injection Hf as _ Hf.
      assert (Hin : In fb (List.filter Bid.is_active bs)).
      { apply filter_In. split; [|exact Hact].
        apply list_elem_of_In. eapply list_elem_of_lookup_2, Hi. }
      rewrite Hf in Hin. destruct Hin.
    + apply IH; assumption.
Qed.

(** Cancelling the only active bid of an auction, which is its highest bid. *)
Lemma cancelBid_sole_active wallet bidId st pk auctionId i bid a :
  NoDup (JsMap.keys (bids st)) ->
  wallet_address wallet = Some pk ->
  find_bid (is_own_bid bidId pk) (bids st) = Some (auctionId, i, bid) ->
  auctionId <> "" ->
  JsMap.get auctionId (auctions st) = Some a ->
  Auction.status a = Auction.active ->
  Auction.highestBid a = Some bid ->
  List.filter Bid.is_active (getAuctionBids auctionId st) = [bid] ->
  result (cancelBid wallet bidId st) = inr tt /\
  JsMap.get auctionId (auctions (store (cancelBid wallet bidId st))) =
    Some (Auction.set_highest None (Auction.startingPrice a) a).
Proof.
  intros Hnd Hw Hf Hne Hget Hs Hhb Hsole.
  split; [eapply cancelBid_success; eassumption|].
  rewrite (cancelBid_success_auction wallet bidId st pk auctionId i bid a)
    by assumption.
  pose proof Hf as Hf'.
  apply find_bid_Some in Hf' as (bs & Hbs & Hi & Hp & _); [|exact Hnd].
  rewrite (cancelBid_success_bids wallet bidId st pk auctionId i bid a bs)
    by assumption.
  unfold getAuctionBids in Hsole. rewrite Hbs in Hsole. simpl in Hsole.
  apply is_own_bid_true in Hp as [Hid _].
  unfold recompute_highest. rewrite Hhb.
  apply String.eqb_eq in Hid. rewrite Hid.
  rewrite (filter_active_insert_sole bs i bid); auto.
Qed.



Lemma fold_highest_split rest : forall pre acc mid,
  (forall b, In b pre -> (Bid.amount b <= Bid.amount acc)%Q) ->
  (forall b, In b mid -> (Bid.amount b < Bid.amount acc)%Q) ->
  exists l1 l2,
    pre ++ acc :: mid ++ rest = l1 ++ reduce_highest acc rest :: l2 /\
    (forall b, In b l1 ->
       (Bid.amount b <= Bid.amount (reduce_highest acc rest))%Q) /\
    (forall b, In b l2 ->
       (Bid.amount b < Bid.amount (reduce_highest acc rest))%Q).
Proof.
  unfold reduce_highest.
  induction rest as [|c rest IH]; intros pre acc mid Hpre Hmid; simpl.
  - exists pre, mid. rewrite app_nil_r. auto.
  - destruct (num_gt (Bid.amount acc) (Bid.amount c)) eqn:E.
    + apply num_gt_true in E.
      destruct (IH pre acc (mid ++ [c])) as (l1 & l2 & Heq & H1 & H2); auto.
      { intros b Hin. apply in_app_or in Hin as [Hin|[<-|[]]]; auto. }
      exists l1, l2. rewrite <- Heq, <- app_assoc. auto.
    + apply num_gt_false in E.
      destruct (IH (pre ++ acc :: mid) c []) as (l1 & l2 & Heq & H1 & H2).
      { intros b Hin. apply in_app_or in Hin as [Hin|[<-|Hin]]; auto.
        - specialize (Hpre b Hin). lra.
        - specialize (Hmid b Hin). lra. }
      { intros b []. }
      exists l1, l2. rewrite <- Heq, <- app_assoc. auto.
Qed.

Lemma reduce_highest_last first rest bs :
  List.filter Bid.is_active bs = first :: rest ->
  highest_active bs (reduce_highest first rest) /\
  last_encountered_maximum bs (reduce_highest first rest).
Proof.
  intros Hf.
  destruct (fold_highest_split rest [] first []) as (l1 & l2 & Heq & H1 & H2);
    [intros b []|intros b []|]. simpl in Heq.
  assert (Hin : In (reduce_highest first rest) (List.filter Bid.is_active bs)).
  { rewrite Hf. apply reduce_highest_In. }
  apply filter_In in Hin as [Hin Hact].
  split.
  - split; [exact Hin|]. split; [exact Hact|].
    intros b Hb Hbact.
    assert (Hb' : In b (l1 ++ reduce_highest first rest :: l2)).
    { rewrite <- Heq, <- Hf. apply filter_In. auto. }
    apply in_app_or in Hb' as [Hb'|[<-|Hb']]; auto.
    + lra.
    + specialize (H2 b Hb'). lra.
  - exists l1, l2. rewrite Hf, Heq. auto.
Qed.

(** C7 (as the code has it). When [cancelBid] cancels a bid whose id is that
    of the auction's highest bid and the auction's bid list still holds an
    active bid afterwards, the new highest bid is an active bid of that list
    with the greatest amount, [currentPrice] is its amount, and among several
    active bids with that amount it is the last one in list order. *)
Theorem cancel_highest_recomputes wallet bidId st pk auctionId i foundBid a highest :
  wallet_address wallet = Some pk ->
  find_bid (is_own_bid bidId pk) (bids st) = Some (auctionId, i, foundBid) ->
  auctionId <> "" ->
  JsMap.get auctionId (auctions st) = Some a ->
  Auction.status a = Auction.active ->
  Auction.highestBid a = Some highest ->
  Bid.id highest = bidId ->
  List.filter Bid.is_active
    (getAuctionBids auctionId (store (cancelBid wallet bidId st))) <> [] ->
  exists a' newHighestBid,
    JsMap.get auctionId (auctions (store (cancelBid wallet bidId st))) = Some a' /\
    Auction.highestBid a' = Some newHighestBid /\
    Auction.currentPrice a' = Bid.amount newHighestBid /\
    highest_active
      (getAuctionBids auctionId (store (cancelBid wallet bidId st)))
      newHighestBid /\
    last_encountered_maximum
      (getAuctionBids auctionId (store (cancelBid wallet bidId st)))
      newHighestBid.
Proof.
  intros Hw Hf Hne Hget Hs Hhb Hid Hact.
  rewrite (cancelBid_success_auction wallet bidId st pk auctionId i foundBid a)
    by assumption.
  set (bs' := getAuctionBids auctionId (store (cancelBid wallet bidId st))) in *.
  unfold recompute_highest. rewrite Hhb.
  apply String.eqb_eq in Hid. rewrite Hid.
  destruct (List.filter Bid.is_active bs') as [|first rest] eqn:Efilter;
    [contradiction|].
  destruct (reduce_highest_last first rest bs' Efilter) as [Hmax Hlast].
  eexists _, (reduce_highest first rest). split; [reflexivity|]. simpl.
  auto.
Qed.

Lemma cancel_highest_recomputes_witness :
  exists a' newHighestBid,
    JsMap.get "a1" (auctions (store (cancelBid carol "b2" scenario_D))) = Some a' /\
    Auction.highestBid a' = Some newHighestBid /\
    Auction.currentPrice a' = Bid.amount newHighestBid /\
    highest_active
      (getAuctionBids "a1" (store (cancelBid carol "b2" scenario_D)))
      newHighestBid /\
    last_encountered_maximum
      (getAuctionBids "a1" (store (cancelBid carol "b2" scenario_D)))
      newHighestBid.
Proof.
  refine (cancel_highest_recomputes carol "b2" scenario_D "carol" "a1" 1 _ _ _
            eq_refl eq_refl _ eq_refl eq_refl eq_refl eq_refl _).
  - discriminate.
  - vm_compute. discriminate.
Defined.

(** C7 (as stated) fails on ties.  In [tied_bids] the bids "b1" and "b2" both
    offer 3.0 and "b3", the highest, offers 4.0; cancelling "b3" leaves "b1"
    and "b2" active and makes "b2", the later of the two, the highest bid. *)
Lemma cancelBid_tie_not_first_counterexample :
  exists b1 b2 a',
    List.filter Bid.is_active
      (getAuctionBids "a1" (store (cancelBid dave "b3" tied_bids))) = [b1; b2] /\
    Bid.amount b1 = Bid.amount b2 /\
    JsMap.get "a1" (auctions (store (cancelBid dave "b3" tied_bids))) = Some a' /\
    Auction.highestBid a' = Some b2 /\
    ~ first_encountered_maximum
        (getAuctionBids "a1" (store (cancelBid dave "b3" tied_bids))) b2.
Proof.
  eexists _, _, _.
  split; [vm_compute; reflexivity|].
  split; [reflexivity|].
  split; [vm_compute; reflexivity|].
  split; [reflexivity|].
  intros (l1 & l2 & Heq & H1 & _). vm_compute in Heq.
  destruct l1 as [|x l1]; [discriminate|].
  injection Heq as <- Heq.
  specialize (H1 _ (or_introl eq_refl)). vm_compute in H1. discriminate.
Qed.

(** Either [cancelBid] fails and changes nothing, or it passed every check. *)
Lemma cancelBid_cases w bidId st :
  (succeeded (cancelBid w bidId st) = false /\ store (cancelBid w bidId st) = st) \/
  (exists pk aid i fb a,
     wallet_address w = Some pk /\
     find_bid (is_own_bid bidId pk) (bids st) = Some (aid, i, fb) /\
     aid <> "" /\
     JsMap.get aid (auctions st) = Some a /\
     Auction.status a = Auction.active).
Proof.
  unfold cancelBid.
  destruct (wallet_address w) as [pk|] eqn:Hw; [|auto].
  destruct (find_bid (is_own_bid bidId pk) (bids st)) as [[[aid i] fb]|] eqn:Hf;
    [|auto].
  destruct (String.eqb aid "") eqn:He; [auto|].
  destruct (JsMap.get aid (auctions st)) as [a|] eqn:Hget; [|auto].
  unfold Auction.is_active.
  destruct (Auction.status a) eqn:Hs; simpl; auto.
  right. exists pk, aid, i, fb, a. apply String.eqb_neq in He. auto.
Qed.

(** C8. [cancelBid] is scoped by ownership.  For a connected wallet with
    address [pk]: the call succeeds only if some bid list holds a bid with id
    [bidId] and bidder [pk]; if every bid with id [bidId] belongs to another
    bidder the call answers "Bid not found", changes nothing and refunds
    nothing; and whatever the call does, a bid of another bidder stays in its
    list, at its position, as it was. *)
Theorem cancelBid_owner_only wallet bidId st pk :
  NoDup (JsMap.keys (bids st)) ->
  wallet_address wallet = Some pk ->
  (result (cancelBid wallet bidId st) = inr tt ->
   exists auctionId bs b,
     In (auctionId, bs) (bids st) /\ In b bs /\
     Bid.id b = bidId /\ Bid.bidder b = pk) /\
  ((forall auctionId bs b,
      In (auctionId, bs) (bids st) -> In b bs ->
      Bid.id b = bidId -> Bid.bidder b <> pk) ->
   cancelBid wallet bidId st = fail BidNotFound st []) /\
  (forall auctionId bs j b,
     JsMap.get auctionId (bids st) = Some bs ->
     bs !! j = Some b ->
     Bid.bidder b <> pk ->
     exists bs',
       JsMap.get auctionId (bids (store (cancelBid wallet bidId st))) = Some bs' /\
       bs' !! j = Some b).
Proof.
  intros Hnd Hw. split; [|split].
  - intros Hr.
    destruct (cancelBid_cases wallet bidId st)
      as [[Hfail _]|(pk' & aid & i & fb & a & Hw' & Hf & _)].
    { unfold succeeded in Hfail. rewrite Hr in Hfail. discriminate. }
    assert (pk' = pk) as -> by congruence.
    apply find_bid_In in Hf as (bs & Hin & Hi & Hp).
    apply is_own_bid_true in Hp as [Hid Hb].
    exists aid, bs, fb. repeat split; auto.
    apply list_elem_of_In. eapply list_elem_of_lookup_2, Hi.
  - intros Hother. unfold cancelBid. rewrite Hw.
    destruct (find_bid (is_own_bid bidId pk) (bids st)) as [[[aid i] fb]|] eqn:Hf;
      [|reflexivity].
    exfalso. apply find_bid_In in Hf as (bs & Hin & Hi & Hp).
    apply is_own_bid_true in Hp as [Hid Hb].
    apply (Hother aid bs fb); auto.
    apply list_elem_of_In. eapply list_elem_of_lookup_2, Hi.
  - intros auctionId bs j b Hbs Hj Hb.
    destruct (cancelBid_cases wallet bidId st)
      as [[_ ->]|(pk' & aid & i & fb & a & Hw' & Hf & Hne & Hget & Hs)];
      [eauto|].
    assert (pk' = pk) as -> by congruence.
    destruct (cancelBid_success wallet bidId st pk aid i fb a Hw Hf Hne Hget Hs)
      as (_ & _ & -> & _).
    rewrite get_alter.
    destruct (String.eqb aid auctionId) eqn:E; [|eauto].
    apply String.eqb_eq in E. subst aid. rewrite Hbs. simpl.
    eexists. split; [reflexivity|].
    apply find_bid_Some in Hf as (bs0 & Hbs0 & Hi & Hp & _); [|exact Hnd].
    assert (bs0 = bs) as -> by congruence.
    apply is_own_bid_true in Hp as [_ Hfb].
    rewrite list_lookup_insert_ne; [exact Hj|].
    intros ->. congruence.
Qed.

Lemma cancelBid_owner_only_witness :
  cancelBid bob "b2" scenario_D = fail BidNotFound scenario_D [].
Proof.
  assert (Hnd : NoDup (JsMap.keys (bids scenario_D))).
  { vm_compute. apply NoDup_singleton. }
  apply (proj1 (proj2 (cancelBid_owner_only bob "b2" scenario_D "bob" Hnd eq_refl))).
  intros auctionId bs b Hin Hb Hid. vm_compute in Hin.
  destruct Hin as [[= <- <-]|[]].
  destruct Hb as [<-|[<-|[]]]; vm_compute in Hid |- *; congruence.
Defined.

(** ** getUserBids *)

Lemma is_user_bid_true userAddress b :
  is_user_bid userAddress b = true <->
  Bid.bidder b = userAddress /\ Bid.status b = Bid.active.
Proof.
  unfold is_user_bid, Bid.is_active. rewrite andb_true_iff, String.eqb_eq.
  destruct (Bid.status b); intuition congruence.
Qed.

Lemma getUserBids_loop p (lists : list (list Bid.t)) : forall userBids,
  fold_left (fun acc bs => acc ++ List.filter p bs) lists userBids =
  userBids ++ List.filter p (List.concat lists).
Proof.
  induction lists as [|bs lists IH]; intros userBids; simpl.
  - rewrite app_nil_r. reflexivity.
  - rewrite IH, List.filter_app, app_assoc. reflexivity.
Qed.

(** C10. [getUserBids] returns, in map and list order, the bids of all bid
    lists that pass the test "bidder is the address and status is active":
    a bid is returned exactly when it occurs in some auction's bid list, its
    bidder is the address and its status is [active]. *)
Theorem getUserBids_exact userAddress st :
  getUserBids userAddress st =
    List.filter (is_user_bid userAddress) (List.concat (JsMap.values (bids st))) /\
  forall b,
    In b (getUserBids userAddress st) <->
    (exists auctionId bs, In (auctionId, bs) (bids st) /\ In b bs) /\
    Bid.bidder b = userAddress /\ Bid.status b = Bid.active.
Proof.
  assert (Heq : getUserBids userAddress st =
    List.filter (is_user_bid userAddress) (List.concat (JsMap.values (bids st)))).
  { unfold getUserBids. rewrite getUserBids_loop. reflexivity. }
  split; [exact Heq|]. intros b. rewrite Heq, filter_In, is_user_bid_true.
  rewrite in_concat. unfold JsMap.values. split.
  - intros [(bs & Hbs & Hb) Hp]. split; [|exact Hp].
    apply in_map_iff in Hbs as ([k bs'] & <- & Hin). eauto.
  - intros [(k & bs & Hin & Hb) Hp]. split; [|exact Hp].
    exists bs. split; [|exact Hb]. apply in_map_iff. exists (k, bs). auto.
Qed.

(** ** endAuction *)

(** What [endAuction] does on an active auction that has a highest bid. *)
Lemma endAuction_settlement auctionId st a highest :
  JsMap.get auctionId (auctions st) = Some a ->
  Auction.status a = Auction.active ->
  Auction.highestBid a = Some highest ->
  result (endAuction auctionId st) = inr tt /\
  JsMap.get auctionId (auctions (store (endAuction auctionId st))) =
    Some (Auction.set_status Auction.ended a) /\
  effects (endAuction auctionId st) =
    match Auction.reservePrice a with
    | Some r =>
        if negb (Qeq_bool r 0) && num_ge (Bid.amount highest) r
        then [CallFinalizeAuction (Auction.set_status Auction.ended a);
              ToastEndedTransferred]
        else [CallRefundBid highest; ToastEndedReserveNotMet]
    | None => [CallRefundBid highest; ToastEndedReserveNotMet]
    end.
Proof.
  intros Hget Hs Hhb. unfold endAuction. rewrite Hget.
  unfold Auction.is_active. rewrite Hs. simpl.
  rewrite get_alter, String.eqb_refl, Hget, Hhb. simpl.
  split; [reflexivity|]. split; [reflexivity|].
  unfold reserve_met. simpl. destruct (Auction.reservePrice a); reflexivity.
Qed.

(** C1 (the code at the failing input). The auction "a1" has no reserve
    price and a highest bid of 3.0; [endAuction] sets its status to [ended]
    and returns success, but calls [refundBid] on the highest bid and reports
    "Reserve price not met"; [finalizeAuction] is not called. *)
Theorem endAuction_without_reserve_refunds :
  exists a highest,
    JsMap.get "a1" (auctions bid_without_reserve) = Some a /\
    Auction.status a = Auction.active /\
    Auction.reservePrice a = None /\
    Auction.highestBid a = Some highest /\
    result (endAuction "a1" bid_without_reserve) = inr tt /\
    (Auction.status <$>
       JsMap.get "a1" (auctions (store (endAuction "a1" bid_without_reserve))))
      = Some Auction.ended /\
    effects (endAuction "a1" bid_without_reserve) =
      [CallRefundBid highest; ToastEndedReserveNotMet].
Proof.
  eexists _, _. split; [reflexivity|]. repeat split.
Qed.

(** With a reserve price set (and not zero) the two paths are as described:
    scenario B refunds, scenario C finalizes. *)
Example endAuction_scenario_B :
  exists highest,
    effects (endAuction "a2" scenario_B) =
      [CallRefundBid highest; ToastEndedReserveNotMet].
Proof. eexists. reflexivity. Qed.

Example endAuction_scenario_C :
  exists a,
    effects (endAuction "a2" scenario_C) =
      [CallFinalizeAuction a; ToastEndedTransferred].
Proof. eexists. reflexivity. Qed.

(** ** Interleaved bids *)

(** A call that nothing interleaves with is its validation followed at once
    by its resumption. *)
Lemma placeBid_validate_resume c st :
  placeBid (call_now c) (call_confirmed c) (call_uuid c) (call_now' c)
           (call_wallet c) (call_auctionId c) (call_bidAmount c) st =
  resume c (validate c st) st.
Proof.
  unfold placeBid, resume, validate.
  destruct (placeBid_validate _ _ _ _ st) as [e|[pk a]]; reflexivity.
Qed.

(** C9 (as the code has it). Two calls on the same auction that both pass
    validation before either resumes, with both payments confirmed, are both
    accepted: each returns its bid, of its caller and with status [active],
    both bids are appended as such to the bid list in the order the calls
    resume, [totalBids] grows by two, and the bid recorded
    as [highestBid], with its amount as [currentPrice], is the one of the call
    that resumes last, whichever amount is higher.  The price does not stay
    where it was. *)
Theorem race_last_resumed_recorded x y st pkx ax pky ay :
  call_auctionId x = call_auctionId y ->
  validate x st = inr (pkx, ax) ->
  validate y st = inr (pky, ay) ->
  SolanaService.processBidPayment (call_confirmed x) (call_wallet x)
                                  (call_bidAmount x) = true ->
  SolanaService.processBidPayment (call_confirmed y) (call_wallet y)
                                  (call_bidAmount y) = true ->
  exists bx by' a',
    result (fst (race x y st)) = inr bx /\
    result (snd (race x y st)) = inr by' /\
    Bid.amount bx = call_bidAmount x /\
    Bid.amount by' = call_bidAmount y /\
    Bid.status bx = Bid.active /\
    Bid.status by' = Bid.active /\
    Bid.bidder bx = pkx /\
    Bid.bidder by' = pky /\
    getAuctionBids (call_auctionId x) (store (snd (race x y st))) =
      getAuctionBids (call_auctionId x) st ++ [bx; by'] /\
    JsMap.get (call_auctionId x) (auctions (store (snd (race x y st)))) = Some a' /\
    Auction.highestBid a' = Some by' /\
    Auction.currentPrice a' = call_bidAmount y /\
    Auction.totalBids a' = S (S (Auction.totalBids ax)) /\
    (Auction.currentPrice ax < Auction.currentPrice a')%Q.
Proof.
  intros Haid Hvx Hvy Hpx Hpy. unfold race. rewrite Hvx, Hvy.
  unfold validate in *.
  apply placeBid_validate_inr in Hvx as (_ & Hget & _ & _ & _).
  apply placeBid_validate_inr in Hvy as (_ & Hget' & _ & _ & Hlt).
  rewrite <- Haid in *. assert (ay = ax) as -> by congruence.
  unfold resume, placeBid_commit. rewrite Hpx. simpl. rewrite Hpy. simpl.
  rewrite <- Haid.
  eexists _, _, _. split; [reflexivity|]. split; [reflexivity|].
  split; [reflexivity|]. split; [reflexivity|].
  split; [reflexivity|]. split; [reflexivity|].
  split; [reflexivity|]. split; [reflexivity|].
  unfold getAuctionBids. simpl.
  rewrite !get_set, !get_alter, !String.eqb_refl, Hget. simpl.
  split; [rewrite <- app_assoc; reflexivity|].
  split; [reflexivity|]. simpl. auto.
Qed.

Lemma race_last_resumed_recorded_witness :
  exists b31 b30 a',
    result (fst (race offer_3_1 offer_3_0 price_two)) = inr b31 /\
    result (snd (race offer_3_1 offer_3_0 price_two)) = inr b30 /\
    Bid.amount b31 = 3.1%Q /\
    Bid.amount b30 = 3%Q /\
    Bid.status b31 = Bid.active /\
    Bid.status b30 = Bid.active /\
    Bid.bidder b31 = "dave" /\
    Bid.bidder b30 = "carol" /\
    getAuctionBids "a1" (store (snd (race offer_3_1 offer_3_0 price_two))) =
      getAuctionBids "a1" price_two ++ [b31; b30] /\
    JsMap.get "a1" (auctions (store (snd (race offer_3_1 offer_3_0 price_two))))
      = Some a' /\
    Auction.highestBid a' = Some b30 /\
    Auction.currentPrice a' = 3%Q.
Proof.
  destruct (race_last_resumed_recorded offer_3_1 offer_3_0 price_two _ _ _ _
              eq_refl eq_refl eq_refl eq_refl eq_refl)
    as (b31 & b30 & a' & H1 & H2 & H3 & H4 & H5 & H6 & H7 & H8 & H9 & H10 &
        H11 & H12 & _).
  exists b31, b30, a'.
  exact (conj H1 (conj H2 (conj H3 (conj H4 (conj H5 (conj H6 (conj H7
          (conj H8 (conj H9 (conj H10 (conj H11 H12))))))))))).
Defined.

(** C9 (as stated) fails.  With the price at 2.0, the offers of 3.1 and 3.0
    both pass validation; when the offer of 3.1 resumes first and the offer of
    3.0 second, both are accepted and the bid recorded as highest is the one
    of 3.0, not the one of 3.1. *)
Lemma race_lower_bid_recorded_counterexample :
  (exists a, validate offer_3_1 price_two = inr ("dave", a) /\
             validate offer_3_0 price_two = inr ("carol", a) /\
             Auction.currentPrice a = 2%Q) /\
  succeeded (fst (race offer_3_1 offer_3_0 price_two)) = true /\
  succeeded (snd (race offer_3_1 offer_3_0 price_two)) = true /\
  exists a' highest,
    JsMap.get "a1" (auctions (store (snd (race offer_3_1 offer_3_0 price_two))))
      = Some a' /\
    Auction.highestBid a' = Some highest /\
    Bid.id highest = "b30" /\
    Auction.currentPrice a' = 3%Q /\
    ~ (Bid.amount highest == 3.1)%Q.
Proof.
  split; [eexists; repeat split|].
  split; [reflexivity|]. split; [reflexivity|].
  eexists _, _. split; [reflexivity|]. split; [reflexivity|].
  split; [reflexivity|]. split; [reflexivity|].
  simpl. intros H. vm_compute in H. discriminate H.
Qed.

(** In the other order the offer of 3.1 resumes last and is the one
    recorded. *)
Example race_higher_bid_resumes_last :
  exists a' highest,
    getAuction "a1" (store (snd (race offer_3_0 offer_3_1 price_two))) = Some a' /\
    Auction.highestBid a' = Some highest /\
    Bid.id highest = "b31" /\
    Auction.currentPrice a' = 3.1%Q.
Proof. eexists _, _. repeat split. Qed.

(** ** The highest bid and the bid list *)

Lemma In_insert_other (bs : list Bid.t) i fb x b :
  In b bs -> bs !! i = Some fb -> b <> fb -> In b (<[i := x]> bs).
Proof.
  revert i. induction bs as [|b0 bs IH]; intros i Hin Hi Hne; [destruct Hin|].
  destruct i as [|i]; simpl in *.
  - injection Hi as ->. destruct Hin as [->|Hin]; [contradiction|auto].
  - destruct Hin as [->|Hin]; [auto|]. right. eapply IH; eassumption.
Qed.

Lemma highest_coherent_createAuction uuid now w nftId sp dh rp st :
  highest_coherent st ->
  highest_coherent (store (createAuction uuid now w nftId sp dh rp st)).
Proof.
  intros H. unfold createAuction.
  destruct (wallet_address w) as [pk|]; [|exact H].
  intros k a. unfold getAuctionBids. simpl. rewrite !get_set.
  destruct (String.eqb uuid k).
  - intros [= <-]. reflexivity.
  - apply H.
Qed.

Lemma highest_coherent_placeBid now c uuid now' w aid amt st :
  highest_coherent st ->
  highest_coherent (store (placeBid now c uuid now' w aid amt st)).
Proof.
  intros H. unfold placeBid.
  destruct (placeBid_validate now w aid amt st) as [e|[pk a]] eqn:Ev; [exact H|].
  apply placeBid_validate_inr in Ev as (_ & Hget & _).
  unfold placeBid_commit. destruct (negb _); [exact H|].
  intros k a'. unfold getAuctionBids. simpl. rewrite get_alter, get_set.
  destruct (String.eqb aid k).
  - rewrite Hget. simpl. intros [= <-]. simpl.
    split; [apply in_or_app; simpl; auto|]. auto.
  - apply H.
Qed.

Lemma highest_coherent_endAuction aid st :
  highest_coherent st -> highest_coherent (store (endAuction aid st)).
Proof.
  intros H. unfold endAuction.
  destruct (JsMap.get aid (auctions st)) as [a|] eqn:Hget; [|exact H].
  destruct (negb (Auction.is_active a)); [exact H|].
  intros k a'. unfold getAuctionBids. simpl. rewrite get_alter.
  destruct (String.eqb aid k) eqn:Ek; [|apply H].
  apply String.eqb_eq in Ek. subst k. rewrite Hget. simpl. intros [= <-].
  apply (H aid a Hget).
Qed.

Lemma highest_coherent_cancelBid w bidId st :
  NoDup (JsMap.keys (bids st)) ->
  highest_coherent st -> highest_coherent (store (cancelBid w bidId st)).
Proof.
  intros Hnd H.
  destruct (cancelBid_cases w bidId st)
    as [[_ ->]|(pk & aid & i & fb & a & Hw & Hf & Hne & Hget & Hs)]; [exact H|].
  pose proof Hf as Hf'.
  apply find_bid_Some in Hf' as (bs & Hbs & Hi & Hp & _); [|exact Hnd].
  apply is_own_bid_true in Hp as [Hid _].
  intros k a'. destruct (String.eqb aid k) eqn:Ek.
  - apply String.eqb_eq in Ek. subst k.
    rewrite (cancelBid_success_auction w bidId st pk aid i fb a) by assumption.
    intros [= <-].
    set (bs' := getAuctionBids aid (store (cancelBid w bidId st))).
    assert (Hbs' : bs' = <[i := Bid.set_status Bid.cancelled fb]> bs)
      by (eapply cancelBid_success_bids; eassumption).
    specialize (H aid a Hget). unfold getAuctionBids in H. rewrite Hbs in H.
    simpl in H. unfold recompute_highest.
    destruct (Auction.highestBid a) as [hb|] eqn:Hhb; [|rewrite Hhb; exact H].
    destruct (String.eqb (Bid.id hb) bidId) eqn:Eid.
    + destruct (List.filter Bid.is_active bs') as [|first rest] eqn:Efilter;
        simpl; [reflexivity|].
      pose proof (reduce_highest_In first rest) as Hin. rewrite <- Efilter in Hin.
      apply filter_In in Hin. tauto.
    + rewrite Hhb. destruct H as (Hin & Hact & Hcp).
      split; [|auto]. rewrite Hbs'.
      apply In_insert_other with (fb := fb); auto.
      intros ->. apply String.eqb_neq in Eid. contradiction.
  - destruct (cancelBid_success w bidId st pk aid i fb a Hw Hf Hne Hget Hs)
      as (_ & _ & Hb & Ha).
    unfold getAuctionBids. rewrite Ha, Hb, !get_alter, Ek. apply H.
Qed.

(** After any sequence of calls the highest bid of every auction is an
    active element of that auction's bid list whose amount is the current
    price. *)
Lemma highestBid_in_step (ops : list Op) : highest_coherent (run ops empty).
Proof.
  assert (H : forall st, store_ok st -> highest_coherent st ->
                         highest_coherent (run ops st)).
  { unfold run. induction ops as [|op ops IH]; simpl; intros st Hok Hc; [exact Hc|].
    apply IH; [apply store_ok_step, Hok|].
    destruct op; simpl.
    - apply highest_coherent_createAuction, Hc.
    - apply highest_coherent_placeBid, Hc.
    - apply highest_coherent_endAuction, Hc.
    - apply highest_coherent_cancelBid; [apply Hok|exact Hc]. }
  apply H; [apply store_ok_empty|]. intros k a. simpl. discriminate.
Qed.

(** ** Placing a bid and cancelling it again *)

Lemma find_from_app_last pred (l : list Bid.t) x : forall n,
  (forall b, In b l -> pred b = false) ->
  pred x = true ->
  find_from pred n (l ++ [x]) = Some ((n + length l)%nat, x).
Proof.
  induction l as [|b0 l IH]; intros n Hl Hx; simpl.
  - rewrite Hx, Nat.add_0_r. reflexivity.
  - rewrite (Hl b0) by (simpl; auto).
    rewrite IH; [|intros b Hb; apply Hl; simpl; auto|exact Hx].
    f_equal. f_equal. lia.
Qed.

Lemma find_bid_appended pred entries k x :
  (forall k' bs b, In (k', bs) entries -> In b bs -> pred b = false) ->
  pred x = true ->
  find_bid pred (JsMap.set k (default [] (JsMap.get k entries) ++ [x]) entries) =
    Some (k, length (default [] (JsMap.get k entries)), x).
Proof.
  induction entries as [|[k0 bs0] rest IH]; intros Hold Hx; simpl.
  - rewrite Hx. reflexivity.
  - destruct (String.eqb k0 k) eqn:E; simpl.
    + apply String.eqb_eq in E. subst k0.
      rewrite find_from_app_last; [reflexivity| |exact Hx].
      intros b Hb. apply (Hold k bs0 b); simpl; auto.
    + assert (Hnone : find_from pred 0 bs0 = None).
      { apply find_from_None. intros b Hb. apply (Hold k0 bs0 b); simpl; auto. }
      rewrite Hnone. apply IH; [|exact Hx].
      intros k' bs b Hin Hb. apply (Hold k' bs b); simpl; auto.
Qed.

(** On an auction without an active bid, a bid that is placed (under an id no
    recorded bid has) and then cancelled by its bidder leaves [currentPrice]
    and [highestBid] as they were before it was placed. *)
Lemma place_then_cancel_round_trip now c uuid now' w aid amt st a bid :
  NoDup (JsMap.keys (bids st)) ->
  highest_coherent st ->
  JsMap.get aid (auctions st) = Some a ->
  List.filter Bid.is_active (getAuctionBids aid st) = [] ->
  aid <> "" ->
  (forall k bs b, In (k, bs) (bids st) -> In b bs -> Bid.id b <> uuid) ->
  result (placeBid now c uuid now' w aid amt st) = inr bid ->
  result (cancelBid w uuid (store (placeBid now c uuid now' w aid amt st)))
    = inr tt /\
  exists a2,
    JsMap.get aid
      (auctions (store (cancelBid w uuid
                          (store (placeBid now c uuid now' w aid amt st)))))
      = Some a2 /\
    Auction.currentPrice a2 = Auction.currentPrice a /\
    Auction.highestBid a2 = Auction.highestBid a.
Proof.
  intros Hnd Hcoh Hget Hnone Hne Hfresh Hres.
  assert (Hbefore : Auction.highestBid a = None /\
                    Auction.currentPrice a = Auction.startingPrice a).
  { specialize (Hcoh aid a Hget).
    destruct (Auction.highestBid a) as [hb|]; [|auto].
    destruct Hcoh as (Hin & Hact & _).
    assert (Hf : In hb (List.filter Bid.is_active (getAuctionBids aid st)))
      by (apply filter_In; auto).
    rewrite Hnone in Hf. destruct Hf. }
  destruct Hbefore as [Hhb Hcp].
  unfold placeBid in *.
  destruct (placeBid_validate now w aid amt st) as [e|[pk a0]] eqn:Ev;
    [discriminate|].
  apply placeBid_validate_inr in Ev as (Hw & Hget' & Hs & _).
  assert (a0 = a) as -> by congruence.
  unfold placeBid_commit in *. destruct (negb _); [discriminate|].
  simpl in Hres. injection Hres as <-. cbn [store].
  set (bid := Bid.mk uuid (Auction.nftId a) pk amt now' Bid.active).
  set (a1 := Auction.incr_totalBids (Auction.set_highest (Some bid) amt a)).
  set (st1 := {| auctions := _; bids := _ |}).
  assert (Hsole : result (cancelBid w uuid st1) = inr tt /\
    JsMap.get aid (auctions (store (cancelBid w uuid st1))) =
      Some (Auction.set_highest None (Auction.startingPrice a1) a1)).
  { apply (cancelBid_sole_active w uuid st1 pk aid
             (length (default [] (JsMap.get aid (bids st)))) bid a1).
    - apply NoDup_keys_set, Hnd.
    - exact Hw.
    - apply find_bid_appended.
      + intros k' bs b Hin Hb. unfold is_own_bid.
        apply andb_false_iff. left. apply String.eqb_neq. eauto.
      + unfold is_own_bid. simpl. rewrite !String.eqb_refl. reflexivity.
    - exact Hne.
    - subst st1. simpl. rewrite get_alter, String.eqb_refl, Hget. reflexivity.
    - exact Hs.
    - reflexivity.
    - subst st1. unfold getAuctionBids in *. simpl.
      rewrite get_set, String.eqb_refl. simpl.
      rewrite List.filter_app, Hnone. reflexivity. }
  destruct Hsole as [Hr Hg]. split; [exact Hr|].
  eexists. split; [exact Hg|]. simpl. rewrite Hhb, Hcp. auto.
Qed.

(** ** The scenarios of the specification *)

(** Scenario A: on an auction starting at 1.0 a bid of 1.5 is accepted, the
    price is then 1.5 with one bid counted; a bid of 1.2 is then too low. *)
Example scenario_A_accepts_then_rejects :
  (Auction.currentPrice <$> getAuction "a1" scenario_A) = Some 1.5%Q /\
  (Auction.totalBids <$> getAuction "a1" scenario_A) = Some 1%nat /\
  result (placeBid 20 confirms "b2" 21 carol "a1" 1.2 scenario_A) = inl BidTooLow.
Proof. repeat split. Qed.

(** Scenario D: after bids of 2.0 and 3.0, cancelling the bid of 3.0 makes the
    bid of 2.0 the highest bid again and 2.0 the price. *)
Example scenario_D_cancel_restores_previous :
  exists a' previous,
    getAuction "a1" (store (cancelBid carol "b2" scenario_D)) = Some a' /\
    Auction.highestBid a' = Some previous /\
    Bid.id previous = "b1" /\
    Bid.amount previous = 2%Q /\
    Auction.currentPrice a' = 2%Q.
Proof. eexists _, _. repeat split. Qed.

(** Scenario E: without a connected wallet [placeBid] fails and touches
    nothing. *)
Example scenario_E_no_wallet :
  placeBid 20 confirms "b2" 21 disconnected "a1" 2 scenario_A =
    fail WalletNotConnected scenario_A [].
Proof. reflexivity. Qed.

(** A call of [placeBid] suspended at its payment while [endAuction] runs
    still records its bid when it resumes: the auction is ended, and its
    price, highest bid and bid list change afterwards.  (C3 speaks of calls
    made after the status change.) *)
Example resume_after_endAuction :
  exists a',
    getAuction "a1"
      (store (resume offer_3_0 (validate offer_3_0 price_two)
                     (store (endAuction "a1" price_two)))) = Some a' /\
    Auction.status a' = Auction.ended /\
    Auction.currentPrice a' = 3%Q /\
    Auction.totalBids a' = 2%nat.
Proof. eexists. repeat split. Qed.

(** * Further properties of the bidding service *)

(** ** Invariants of one auction and its bid list

    A property [P k a bs] of the auction [a] stored under [k] and its bid
    list [bs] holds after every sequence of calls if a new auction has it and
    each of the three mutations keeps it. *)
Section KeyedInvariant.
Variable P : string -> Auction.t -> list Bid.t -> Prop.

Hypothesis P_create : forall uuid nftId pk startingPrice reservePrice now endTime,
  P uuid (Auction.mk uuid nftId pk startingPrice startingPrice reservePrice
                     now endTime Auction.active None 0) [].
Hypothesis P_placeBid : forall k a bs bid,
  P k a bs ->
  Auction.status a = Auction.active ->
  (Auction.currentPrice a < Bid.amount bid)%Q ->
  Bid.status bid = Bid.active ->
  Bid.nftId bid = Auction.nftId a ->
  P k (Auction.incr_totalBids (Auction.set_highest (Some bid) (Bid.amount bid) a))
    (bs ++ [bid]).
Hypothesis P_endAuction : forall k a bs,
  P k a bs -> P k (Auction.set_status Auction.ended a) bs.
Hypothesis P_cancelBid : forall k a bs i foundBid,
  P k a bs ->
  bs !! i = Some foundBid ->
  Auction.status a = Auction.active ->
  P k (recompute_highest (Bid.id foundBid)
         (<[i := Bid.set_status Bid.cancelled foundBid]> bs) a)
    (<[i := Bid.set_status Bid.cancelled foundBid]> bs).

Lemma holds_in_step op st :
  NoDup (JsMap.keys (bids st)) ->
  (forall k a, JsMap.get k (auctions st) = Some a -> P k a (getAuctionBids k st)) ->
  forall k a, JsMap.get k (auctions (step op st)) = Some a ->
              P k a (getAuctionBids k (step op st)).
Proof.
  intros Hnd H.
  destruct op as [uuid now w nftId sp dh rp|now c uuid now' w aid amt|aid|w bidId];
    simpl.
  - unfold createAuction. destruct (wallet_address w) as [pk|]; [|exact H].
    intros k a. unfold getAuctionBids. simpl. rewrite !get_set.
    destruct (String.eqb uuid k) eqn:E; [|apply H].
    apply String.eqb_eq in E. subst k. intros [= <-]. apply P_create.
  - unfold placeBid.
    destruct (placeBid_validate now w aid amt st) as [e|[pk a]] eqn:Ev; [exact H|].
    apply placeBid_validate_inr in Ev as (_ & Hget & Hs & _ & Hlt).
    unfold placeBid_commit. destruct (negb _); [exact H|].
    intros k a'. unfold getAuctionBids. simpl. rewrite get_alter, get_set.
    destruct (String.eqb aid k) eqn:E; [|apply H].
    apply String.eqb_eq in E. subst k. rewrite Hget. simpl. intros [= <-].
    apply (P_placeBid aid a _ (Bid.mk uuid (Auction.nftId a) pk amt now' Bid.active));
      auto.
  - unfold endAuction.
    destruct (JsMap.get aid (auctions st)) as [a|] eqn:Hget; [|exact H].
    destruct (negb (Auction.is_active a)); [exact H|].
    intros k a'. unfold getAuctionBids. simpl. rewrite get_alter.
    destruct (String.eqb aid k) eqn:E; [|apply H].
    apply String.eqb_eq in E. subst k. rewrite Hget. simpl. intros [= <-].
    apply P_endAuction, (H aid a Hget).
  - destruct (cancelBid_cases w bidId st)
      as [[_ ->]|(pk & aid & i & fb & a & Hw & Hf & Hne & Hget & Hs)]; [exact H|].
    pose proof Hf as Hf'.
    apply find_bid_Some in Hf' as (bs & Hbs & Hi & Hp & _); [|exact Hnd].
    apply is_own_bid_true in Hp as [Hid _].
    intros k a'. destruct (String.eqb aid k) eqn:E.
    + apply String.eqb_eq in E. subst k.
      rewrite (cancelBid_success_auction w bidId st pk aid i fb a) by assumption.
      rewrite (cancelBid_success_bids w bidId st pk aid i fb a bs) by assumption.
      intros [= <-]. rewrite <- Hid. apply P_cancelBid; auto.
      specialize (H aid a Hget). unfold getAuctionBids in H.
      rewrite Hbs in H. exact H.
    + destruct (cancelBid_success w bidId st pk aid i fb a Hw Hf Hne Hget Hs)
        as (_ & _ & Hb & Ha).
      unfold getAuctionBids. rewrite Ha, Hb, !get_alter, E. apply H.
Qed.

Lemma holds_in_run ops :
  forall k a, JsMap.get k (auctions (run ops empty)) = Some a ->
              P k a (getAuctionBids k (run ops empty)).
Proof.
  assert (H : forall st, store_ok st ->
    (forall k a, JsMap.get k (auctions st) = Some a -> P k a (getAuctionBids k st)) ->
    forall k a, JsMap.get k (auctions (run ops st)) = Some a ->
                P k a (getAuctionBids k (run ops st))).
  { unfold run. induction ops as [|op ops IH]; simpl; intros st Hok Hc; [exact Hc|].
    apply IH; [apply store_ok_step, Hok|].
    apply holds_in_step; [apply Hok|exact Hc]. }
  apply H; [apply store_ok_empty|]. intros k a. simpl. discriminate.
Qed.

End KeyedInvariant.

Lemma active_after_cancel (bs : list Bid.t) i fb b :
  In b (<[i := Bid.set_status Bid.cancelled fb]> bs) ->
  Bid.is_active b = true ->
  In b bs.
Proof.
  intros Hin Hact. apply In_insert in Hin as [->|Hin]; [discriminate|exact Hin].
Qed.

(** X1. [totalBids] counts every bid ever recorded for the auction: after
    any sequence of calls it is the length of the auction's bid list,
    cancelled bids included. *)
Theorem totalBids_is_bid_list_length ops k a :
  getAuction k (run ops empty) = Some a ->
  Auction.totalBids a = length (getAuctionBids k (run ops empty)).
Proof.
  revert k a.
  apply (holds_in_run (fun _ a bs => Auction.totalBids a = length bs)).
  - reflexivity.
  - intros k a bs bid H _ _ _ _. simpl. rewrite length_app, H. simpl. lia.
  - intros k a bs H. exact H.
  - intros k a bs i fb H _ _. rewrite length_insert.
    unfold recompute_highest.
    destruct (Auction.highestBid a) as [hb|]; [|exact H].
    destruct (String.eqb (Bid.id hb) (Bid.id fb)); [|exact H].
    destruct (List.filter _ _); exact H.
Qed.

Lemma totalBids_is_bid_list_length_witness :
  (Auction.totalBids <$> getAuction "a1" (store (cancelBid carol "b2" scenario_D)))
    = Some 2%nat /\
  length (getAuctionBids "a1" (store (cancelBid carol "b2" scenario_D))) = 2%nat.
Proof.
  pose proof (totalBids_is_bid_list_length
    (open_auction ++ [OpPlaceBid 10 confirms "b1" 11 bob "a1" 2;
                      OpPlaceBid 20 confirms "b2" 21 carol "a1" 3;
                      OpCancelBid carol "b2"]) "a1" _ eq_refl) as H.
  split; [reflexivity|]. symmetry. exact H.
Defined.

(** X2. After any sequence of calls an auction is stored under its own id
    and every bid of its bid list carries the auction's [nftId]. *)
Theorem bids_belong_to_their_auction ops k a :
  getAuction k (run ops empty) = Some a ->
  Auction.id a = k /\
  forall b, In b (getAuctionBids k (run ops empty)) ->
            Bid.nftId b = Auction.nftId a.
Proof.
  revert k a.
  apply (holds_in_run (fun k a bs =>
    Auction.id a = k /\ forall b, In b bs -> Bid.nftId b = Auction.nftId a)).
  - intros. split; [reflexivity|]. intros b [].
  - intros k a bs bid [Hid H] _ _ _ Hn. simpl. split; [exact Hid|].
    intros b Hin. apply in_app_or in Hin as [Hin|[<-|[]]]; auto.
  - intros k a bs H. exact H.
  - intros k a bs i fb [Hid H] Hi _.
    assert (Hsame : forall a', Auction.id a' = Auction.id a ->
              Auction.nftId a' = Auction.nftId a ->
              Auction.id a' = k /\
              forall b, In b (<[i := Bid.set_status Bid.cancelled fb]> bs) ->
                        Bid.nftId b = Auction.nftId a').
    { intros a' Hid' Hn'. split; [congruence|]. intros b Hin. rewrite Hn'.
      apply In_insert in Hin as [->|Hin]; [|auto]. simpl.
      apply H, list_elem_of_In. eapply list_elem_of_lookup_2, Hi. }
    unfold recompute_highest.
    destruct (Auction.highestBid a) as [hb|]; [|auto].
    destruct (String.eqb (Bid.id hb) (Bid.id fb)); [|auto].
    destruct (List.filter _ _); apply Hsame; reflexivity.
Qed.

Lemma bids_belong_to_their_auction_witness :
  List.Forall (fun b => Bid.nftId b = "nft1") (getAuctionBids "a1" scenario_D).
Proof.
  apply List.Forall_forall.
  exact (proj2 (bids_belong_to_their_auction
    (open_auction ++ [OpPlaceBid 10 confirms "b1" 11 bob "a1" 2;
                      OpPlaceBid 20 confirms "b2" 21 carol "a1" 3]) "a1" _ eq_refl)).
Defined.

(** ** The highest bid in sequences of calls *)

Lemma recompute_highest_cases bidId bs a :
  (recompute_highest bidId bs a = a /\
   (Auction.highestBid a = None \/
    exists hb, Auction.highestBid a = Some hb /\ Bid.id hb <> bidId)) \/
  (exists hb, Auction.highestBid a = Some hb /\ Bid.id hb = bidId /\
     ((List.filter Bid.is_active bs = [] /\
       recompute_highest bidId bs a =
         Auction.set_highest None (Auction.startingPrice a) a) \/
      (exists first rest,
         List.filter Bid.is_active bs = first :: rest /\
         recompute_highest bidId bs a =
           Auction.set_highest (Some (reduce_highest first rest))
             (Bid.amount (reduce_highest first rest)) a))).
Proof.
  unfold recompute_highest.
  destruct (Auction.highestBid a) as [hb|]; [|auto].
  destruct (String.eqb (Bid.id hb) bidId) eqn:E.
  - apply String.eqb_eq in E. right. exists hb. split; [reflexivity|].
    split; [exact E|].
    destruct (List.filter Bid.is_active bs) as [|first rest]; [auto|].
    right. exists first, rest. auto.
  - apply String.eqb_neq in E. left. split; [reflexivity|]. right. eauto.
Qed.

Lemma highest_tracks_placeBid a bs bid :
  highest_tracks_active a bs ->
  (Auction.currentPrice a < Bid.amount bid)%Q ->
  Bid.status bid = Bid.active ->
  highest_tracks_active
    (Auction.incr_totalBids (Auction.set_highest (Some bid) (Bid.amount bid) a))
    (bs ++ [bid]).
Proof.
  unfold highest_tracks_active. intros H Hlt Hact. simpl. split; [|reflexivity].
  split; [apply in_or_app; simpl; auto|].
  split; [unfold Bid.is_active; rewrite Hact; reflexivity|].
  intros b Hin Hb. apply in_app_or in Hin as [Hin|[<-|[]]]; [|lra].
  destruct (Auction.highestBid a) as [hb|].
  - destruct H as [(_ & _ & Hmax) Hcp]. specialize (Hmax b Hin Hb).
    rewrite Hcp in Hlt. lra.
  - destruct H as [Hnone _].
    assert (Hf : In b (List.filter Bid.is_active bs)) by (apply filter_In; auto).
    rewrite Hnone in Hf. destruct Hf.
Qed.

Lemma highest_tracks_cancelBid a bs i fb :
  highest_tracks_active a bs ->
  bs !! i = Some fb ->
  highest_tracks_active
    (recompute_highest (Bid.id fb)
       (<[i := Bid.set_status Bid.cancelled fb]> bs) a)
    (<[i := Bid.set_status Bid.cancelled fb]> bs).
Proof.
  unfold highest_tracks_active. intros H Hi.
  set (bs' := <[i := Bid.set_status Bid.cancelled fb]> bs).
  destruct (recompute_highest_cases (Bid.id fb) bs' a)
    as [[-> Hsame]|(hb & Hhb & Hid & [[Hnone ->]|(first & rest & Hf & ->)])].
  - destruct Hsame as [Hnone|(hb & Hhb & Hne)].
    + rewrite Hnone in *. destruct H as [Hf Hcp]. split; [|exact Hcp].
      destruct (List.filter Bid.is_active bs') as [|b l] eqn:E; [reflexivity|].
      assert (Hb : In b (List.filter Bid.is_active bs'))
        by (rewrite E; simpl; auto).
      apply filter_In in Hb as [Hb Hact].
      apply active_after_cancel in Hb; [|exact Hact].
      assert (Hb' : In b (List.filter Bid.is_active bs))
        by (apply filter_In; auto).
      rewrite Hf in Hb'. destruct Hb'.
    + rewrite Hhb in *. destruct H as [(Hin & Hact & Hmax) Hcp].
      split; [|exact Hcp]. split; [|split; [exact Hact|]].
      * apply In_insert_other with (fb := fb); auto. congruence.
      * intros b Hb Hbact. apply Hmax; [|exact Hbact].
        eapply active_after_cancel; eassumption.
  - simpl. auto.
  - simpl. split; [|reflexivity]. apply reduce_highest_last, Hf.
Qed.

(** X3. When calls do not interleave, the highest bid is always the active
    bid with the greatest amount: after any sequence of calls, an auction
    with a highest bid has it among the active bids of its list, no active
    bid offers more, and [currentPrice] is its amount; an auction without a
    highest bid has no active bid and [currentPrice] is [startingPrice]. *)
Theorem highestBid_is_greatest_active ops k a :
  getAuction k (run ops empty) = Some a ->
  match Auction.highestBid a with
  | Some highest =>
      highest_active (getAuctionBids k (run ops empty)) highest /\
      Auction.currentPrice a = Bid.amount highest
  | None =>
      List.filter Bid.is_active (getAuctionBids k (run ops empty)) = [] /\
      Auction.currentPrice a = Auction.startingPrice a
  end.
Proof.
  revert k a.
  apply (holds_in_run (fun _ a bs => highest_tracks_active a bs)).
  - intros. split; reflexivity.
  - intros k a bs bid H _ Hlt Hact _. apply highest_tracks_placeBid; assumption.
  - intros k a bs H. exact H.
  - intros k a bs i fb H Hi _. apply highest_tracks_cancelBid; assumption.
Qed.

Lemma highestBid_is_greatest_active_witness :
  exists highest,
    highest_active (getAuctionBids "a1" scenario_D) highest /\
    Bid.amount highest = 3%Q.
Proof.
  pose proof (highestBid_is_greatest_active
    (open_auction ++ [OpPlaceBid 10 confirms "b1" 11 bob "a1" 2;
                      OpPlaceBid 20 confirms "b2" 21 carol "a1" 3]) "a1" _ eq_refl)
    as [H _].
  eexists. split; [exact H|reflexivity].
Defined.

Lemma sorted_active_snoc (bs : list Bid.t) bid :
  active_amounts_increase bs ->
  (forall b, In b bs -> Bid.is_active b = true ->
             (Bid.amount b < Bid.amount bid)%Q) ->
  active_amounts_increase (bs ++ [bid]).
Proof.
  unfold active_amounts_increase. rewrite List.filter_app.
  intros Hs Hlt.
  assert (Hall : forall b, In b (List.filter Bid.is_active bs) ->
                           (Bid.amount b < Bid.amount bid)%Q).
  { intros b Hb. apply filter_In in Hb as [Hb Hact]. auto. }
  clear Hlt. induction Hs as [|b l Hl IH Hb]; simpl.
  - destruct (Bid.is_active bid); repeat constructor.
  - constructor.
    + apply IH. intros b' Hb'. apply Hall. simpl. auto.
    + apply List.Forall_forall. intros y Hy.
      apply in_app_or in Hy as [Hy|Hy].
      * rewrite List.Forall_forall in Hb. auto.
      * destruct (Bid.is_active bid); simpl in Hy; [|destruct Hy].
        destruct Hy as [<-|[]]. apply Hall. simpl. auto.
Qed.

Lemma sorted_active_cancel (bs : list Bid.t) i x :
  Bid.is_active x = false ->
  active_amounts_increase bs ->
  active_amounts_increase (<[i := x]> bs).
Proof.
  unfold active_amounts_increase. intros Hx. revert i.
  induction bs as [|b0 bs IH]; intros i Hs; [destruct i; exact Hs|].
  destruct i as [|i]; simpl in *.
  - rewrite Hx. destruct (Bid.is_active b0); [|exact Hs].
    inversion Hs; assumption.
  - destruct (Bid.is_active b0) eqn:E0; [|auto].
    inversion Hs as [|? ? Hs' Hall]; subst. constructor; [auto|].
    apply List.Forall_forall. intros y Hy.
    apply filter_In in Hy as [Hy Hact].
    apply In_insert in Hy as [->|Hy]; [congruence|].
    rewrite List.Forall_forall in Hall. apply Hall, filter_In. auto.
Qed.

(** X4. When calls do not interleave, no two active bids of an auction
    offer the same amount: after any sequence of calls the amounts of the
    active bids of every bid list grow strictly in list order. *)
Theorem active_bids_strictly_increase ops k a :
  getAuction k (run ops empty) = Some a ->
  active_amounts_increase (getAuctionBids k (run ops empty)).
Proof.
  intros Hget.
  enough (H : highest_tracks_active a (getAuctionBids k (run ops empty)) /\
              active_amounts_increase (getAuctionBids k (run ops empty)))
    by apply H.
  revert k a Hget.
  apply (holds_in_run (fun _ a bs =>
           highest_tracks_active a bs /\ active_amounts_increase bs)).
  - intros. split; [split; reflexivity|constructor].
  - intros k a bs bid [Ht Hs] _ Hlt Hact _.
    split; [apply highest_tracks_placeBid; assumption|].
    apply sorted_active_snoc; [exact Hs|]. intros b Hb Hbact.
    unfold highest_tracks_active in Ht.
    destruct (Auction.highestBid a) as [hb|].
    + destruct Ht as [(_ & _ & Hmax) Hcp]. specialize (Hmax b Hb Hbact).
      rewrite Hcp in Hlt. lra.
    + destruct Ht as [Hnone _].
      assert (Hf : In b (List.filter Bid.is_active bs)) by (apply filter_In; auto).
      rewrite Hnone in Hf. destruct Hf.
  - intros k a bs H. exact H.
  - intros k a bs i fb [Ht Hs] Hi _.
    split; [apply highest_tracks_cancelBid; assumption|].
    apply sorted_active_cancel; [reflexivity|exact Hs].
Qed.

Lemma active_bids_strictly_increase_witness :
  active_amounts_increase (getAuctionBids "a1" scenario_D).
Proof.
  exact (active_bids_strictly_increase
    (open_auction ++ [OpPlaceBid 10 confirms "b1" 11 bob "a1" 2;
                      OpPlaceBid 20 confirms "b2" 21 carol "a1" 3]) "a1" _ eq_refl).
Defined.

(** ** More on placeBid *)

Lemma placeBid_validate_complete now w aid amt st pk a :
  wallet_address w = Some pk ->
  JsMap.get aid (auctions st) = Some a ->
  Auction.status a = Auction.active ->
  (now <= Auction.endTime a)%Q ->
  (Auction.currentPrice a < amt)%Q ->
  placeBid_validate now w aid amt st = inr (pk, a).
Proof.
  intros Hw Hget Hs Ht Hp. unfold placeBid_validate. rewrite Hw, Hget.
  unfold Auction.is_active. rewrite Hs. simpl.
  apply num_gt_false in Ht. apply num_le_false in Hp. rewrite Ht, Hp.
  reflexivity.
Qed.

(** X5. [placeBid] returns a bid exactly when the wallet is connected with
    a public key, the auction exists and is active, the time of the call is
    not after [endTime], the offer is above [currentPrice] and
    [processBidPayment] returns [true] for the wallet and the offered amount;
    for that the wallet has to offer [signTransaction] and the transfer of
    that amount has to go through. *)
Theorem placeBid_succeeds_iff now confirmed uuid now' wallet auctionId bidAmount st :
  (succeeded (placeBid now confirmed uuid now' wallet auctionId bidAmount st) = true
   <->
   exists pk a,
     wallet_address wallet = Some pk /\
     JsMap.get auctionId (auctions st) = Some a /\
     Auction.status a = Auction.active /\
     (now <= Auction.endTime a)%Q /\
     (Auction.currentPrice a < bidAmount)%Q /\
     SolanaService.processBidPayment confirmed wallet bidAmount = true) /\
  (SolanaService.processBidPayment confirmed wallet bidAmount = true ->
   signTransaction wallet = true /\ confirmed bidAmount = true).
Proof.
  split.
  - unfold placeBid, succeeded. split.
    + destruct (placeBid_validate now wallet auctionId bidAmount st)
        as [e|[pk a]] eqn:Ev; [discriminate|].
      apply placeBid_validate_inr in Ev as (Hw & Hget & Hs & Ht & Hp).
      unfold placeBid_commit.
      destruct (SolanaService.processBidPayment confirmed wallet bidAmount);
        [|discriminate].
      intros _. exists pk, a. auto 10.
    + intros (pk & a & Hw & Hget & Hs & Ht & Hp & Hpay).
      rewrite (placeBid_validate_complete now wallet auctionId bidAmount st pk a)
        by assumption.
      unfold placeBid_commit. rewrite Hpay. reflexivity.
  - unfold SolanaService.processBidPayment.
    destruct (publicKey wallet); [|discriminate].
    destruct (signTransaction wallet); [|discriminate]. auto.
Qed.

Lemma getUserBids_as_filter userAddress st :
  getUserBids userAddress st =
  List.filter (is_user_bid userAddress) (List.concat (JsMap.values (bids st))).
Proof. unfold getUserBids. rewrite getUserBids_loop. reflexivity. Qed.

Lemma In_concat_values_append (m : list (string * list Bid.t)) k x b :
  In b (List.concat (JsMap.values
          (JsMap.set k (default [] (JsMap.get k m) ++ [x]) m))) <->
  In b (List.concat (JsMap.values m)) \/ b = x.
Proof.
  unfold JsMap.values.
  induction m as [|[k0 bs0] m IH]; simpl.
  - intuition.
  - destruct (String.eqb k0 k); simpl.
    + rewrite !in_app_iff. simpl. intuition.
    + rewrite !in_app_iff, IH. intuition.
Qed.

(** X6. A bid that [placeBid] returns is the new last element of the
    auction's bid list, is active, belongs to the caller and carries the
    offered amount; the auction counts one bid more; every other auction and
    bid list is as before; and [getUserBids] returns, for any address, what it
    returned before plus, for the caller's address, the new bid. *)
Theorem placeBid_records_bid now confirmed uuid now' wallet auctionId bidAmount st bid :
  result (placeBid now confirmed uuid now' wallet auctionId bidAmount st) = inr bid ->
  exists pk a,
    wallet_address wallet = Some pk /\
    getAuction auctionId st = Some a /\
    bid = Bid.mk uuid (Auction.nftId a) pk bidAmount now' Bid.active /\
    getAuctionBids auctionId
      (store (placeBid now confirmed uuid now' wallet auctionId bidAmount st)) =
      getAuctionBids auctionId st ++ [bid] /\
    getAuction auctionId
      (store (placeBid now confirmed uuid now' wallet auctionId bidAmount st)) =
      Some (Auction.incr_totalBids (Auction.set_highest (Some bid) bidAmount a)) /\
    (forall k, k <> auctionId ->
       getAuction k
         (store (placeBid now confirmed uuid now' wallet auctionId bidAmount st)) =
         getAuction k st /\
       getAuctionBids k
         (store (placeBid now confirmed uuid now' wallet auctionId bidAmount st)) =
         getAuctionBids k st) /\
    (forall userAddress b,
       In b (getUserBids userAddress
               (store (placeBid now confirmed uuid now' wallet auctionId
                                bidAmount st))) <->
       In b (getUserBids userAddress st) \/ (b = bid /\ userAddress = pk)).
Proof.
  unfold placeBid.
  destruct (placeBid_validate now wallet auctionId bidAmount st)
    as [e|[pk a]] eqn:Ev; [discriminate|].
  apply placeBid_validate_inr in Ev as (Hw & Hget & Hs & Ht & Hp).
  unfold placeBid_commit. destruct (negb _); [discriminate|].
  simpl. intros [= <-]. exists pk, a.
  split; [exact Hw|]. split; [exact Hget|]. split; [reflexivity|].
  unfold getAuction, getAuctionBids. simpl.
  rewrite get_set, get_alter, String.eqb_refl, Hget. simpl.
  split; [reflexivity|]. split; [reflexivity|]. split.
  - intros k Hk. rewrite get_set, get_alter.
    apply not_eq_sym, String.eqb_neq in Hk. rewrite Hk. auto.
  - intros userAddress b.
    rewrite !getUserBids_as_filter. simpl.
    rewrite !filter_In, In_concat_values_append, is_user_bid_true.
    split.
    + intros [[Hin|Heq] [Hb Hst]]; [left; auto|].
      subst b. right. simpl in Hb. auto.
    + intros [[Hin Hu]|[Hb Hu]]; [auto|].
      subst. auto.
Qed.

Lemma placeBid_records_bid_witness :
  exists bid,
    result (placeBid 20 confirms "b2" 21 carol "a1" 2 scenario_A) = inr bid /\
    getAuctionBids "a1" (store (placeBid 20 confirms "b2" 21 carol "a1" 2 scenario_A)) =
      getAuctionBids "a1" scenario_A ++ [bid].
Proof.
  eexists. split; [reflexivity|].
  destruct (placeBid_records_bid 20 confirms "b2" 21 carol "a1" 2 scenario_A _ eq_refl)
    as (pk & a & _ & _ & _ & H & _).
  exact H.
Defined.

(** ** More on cancelBid *)

Lemma find_from_insert pred (bs : list Bid.t) x : forall n j fb,
  bs !! j = Some fb ->
  (forall j' b', (j' < j)%nat -> bs !! j' = Some b' -> pred b' = false) ->
  pred x = true ->
  find_from pred n (<[j := x]> bs) = Some ((n + j)%nat, x).
Proof.
  induction bs as [|b0 bs IH]; intros n j fb Hj Hbefore Hx; [discriminate|].
  destruct j as [|j]; simpl.
  - rewrite Hx, Nat.add_0_r. reflexivity.
  - rewrite (Hbefore 0%nat b0) by (simpl; auto; lia).
    rewrite (IH (S n) j fb); [f_equal; f_equal; lia|exact Hj| |exact Hx].
    intros j' b' Hlt Hb'. apply (Hbefore (S j') b'); [lia|exact Hb'].
Qed.

Lemma find_bid_alter_insert pred entries aid i fb x :
  NoDup (JsMap.keys entries) ->
  find_bid pred entries = Some (aid, i, fb) ->
  pred x = true ->
  find_bid pred (JsMap.alter (fun bs => <[i := x]> bs) aid entries) =
    Some (aid, i, x).
Proof.
  unfold JsMap.keys.
  induction entries as [|[k0 bs0] rest IH]; simpl; intros Hnd Hf Hx; [discriminate|].
  apply NoDup_cons in Hnd as [Hk Hnd].
  destruct (find_from pred 0 bs0) as [[i0 b0]|] eqn:E.
  - injection Hf as <- <- <-. rewrite String.eqb_refl. simpl.
    apply find_from_Some in E as (j & -> & Hj & _ & Hbefore). simpl.
    rewrite (find_from_insert pred bs0 x 0 j b0); auto.
  - destruct (String.eqb k0 aid) eqn:Ek.
    + apply String.eqb_eq in Ek. subst k0. exfalso. apply Hk.
      apply find_bid_In in Hf as (bs & Hin & _).
      apply list_elem_of_In. apply (in_map fst) in Hin. exact Hin.
    + simpl. rewrite E. auto.
Qed.

Lemma alter_alter_insert (entries : list (string * list Bid.t)) aid i x :
  JsMap.alter (fun bs => <[i := x]> bs) aid
    (JsMap.alter (fun bs => <[i := x]> bs) aid entries) =
  JsMap.alter (fun bs => <[i := x]> bs) aid entries.
Proof.
  induction entries as [|[k0 bs0] rest IH]; simpl; [reflexivity|].
  destruct (String.eqb k0 aid) eqn:E; simpl; rewrite E.
  - rewrite list_insert_insert_eq. reflexivity.
  - rewrite IH. reflexivity.
Qed.

Lemma recompute_highest_fields bidId bs a :
  Auction.id (recompute_highest bidId bs a) = Auction.id a /\
  Auction.nftId (recompute_highest bidId bs a) = Auction.nftId a /\
  Auction.seller (recompute_highest bidId bs a) = Auction.seller a /\
  Auction.startingPrice (recompute_highest bidId bs a) = Auction.startingPrice a /\
  Auction.reservePrice (recompute_highest bidId bs a) = Auction.reservePrice a /\
  Auction.startTime (recompute_highest bidId bs a) = Auction.startTime a /\
  Auction.endTime (recompute_highest bidId bs a) = Auction.endTime a /\
  Auction.status (recompute_highest bidId bs a) = Auction.status a /\
  Auction.totalBids (recompute_highest bidId bs a) = Auction.totalBids a.
Proof.
  unfold recompute_highest.
  destruct (Auction.highestBid a) as [hb|]; [|auto 10].
  destruct (String.eqb (Bid.id hb) bidId); [|auto 10].
  destruct (List.filter Bid.is_active bs); simpl; auto 10.
Qed.

(** X7. [cancelBid] does not look at the bid's status: once a call has
    cancelled a bid, the same call made again succeeds again and calls
    [refundBid] again, now on the cancelled bid, and leaves the bid lists as
    they are. *)
Theorem cancelBid_again_refunds_again wallet bidId st :
  NoDup (JsMap.keys (bids st)) ->
  result (cancelBid wallet bidId st) = inr tt ->
  result (cancelBid wallet bidId (store (cancelBid wallet bidId st))) = inr tt /\
  (exists cancelledBid,
     effects (cancelBid wallet bidId (store (cancelBid wallet bidId st))) =
       [CallRefundBid cancelledBid; ToastBidCancelled] /\
     Bid.id cancelledBid = bidId /\
     Bid.status cancelledBid = Bid.cancelled) /\
  bids (store (cancelBid wallet bidId (store (cancelBid wallet bidId st)))) =
    bids (store (cancelBid wallet bidId st)).
Proof.
  intros Hnd Hr.
  destruct (cancelBid_cases wallet bidId st)
    as [[Hfail _]|(pk & aid & i & fb & a & Hw & Hf & Hne & Hget & Hs)].
  { unfold succeeded in Hfail. rewrite Hr in Hfail. discriminate. }
  destruct (cancelBid_success wallet bidId st pk aid i fb a Hw Hf Hne Hget Hs)
    as (_ & _ & Hb & Ha).
  set (st1 := store (cancelBid wallet bidId st)) in *.
  set (fb1 := Bid.set_status Bid.cancelled fb) in *.
  assert (Hp : is_own_bid bidId pk fb = true).
  { apply find_bid_In in Hf as (bs & _ & _ & Hp). exact Hp. }
  assert (Hf1 : find_bid (is_own_bid bidId pk) (bids st1) = Some (aid, i, fb1)).
  { rewrite Hb. apply find_bid_alter_insert with (fb := fb); auto. }
  assert (Hget1 : JsMap.get aid (auctions st1) =
                  Some (recompute_highest bidId (getAuctionBids aid st1) a)).
  { rewrite Ha, get_alter, String.eqb_refl, Hget. reflexivity. }
  assert (Hs1 : Auction.status
                  (recompute_highest bidId (getAuctionBids aid st1) a)
                = Auction.active).
  { rewrite <- Hs. apply recompute_highest_fields. }
  destruct (cancelBid_success wallet bidId st1 pk aid i fb1 _ Hw Hf1 Hne Hget1 Hs1)
    as (Hr2 & He2 & Hb2 & _).
  split; [exact Hr2|]. split.
  - exists fb1. split; [exact He2|]. apply is_own_bid_true in Hp as [Hid _].
    auto.
  - rewrite Hb2, Hb. subst fb1. simpl. apply alter_alter_insert.
Qed.

Lemma cancelBid_again_refunds_again_witness :
  result (cancelBid carol "b2" (store (cancelBid carol "b2" scenario_D))) = inr tt.
Proof.
  assert (Hnd : NoDup (JsMap.keys (bids scenario_D))).
  { vm_compute. apply NoDup_singleton. }
  exact (proj1 (cancelBid_again_refunds_again carol "b2" scenario_D Hnd eq_refl)).
Defined.

(** X8. [cancelBid] removes nothing and rewrites nothing but a status and
    the highest bid: whatever the call, every auction keeps its id, NFT,
    seller, starting and reserve price, times, status and [totalBids], every
    bid list keeps its length, and each bid is afterwards either unchanged or
    the same bid with status [cancelled]. *)
Theorem cancelBid_only_marks wallet bidId st :
  NoDup (JsMap.keys (bids st)) ->
  (forall k a, getAuction k st = Some a ->
     exists a', getAuction k (store (cancelBid wallet bidId st)) = Some a' /\
       Auction.id a' = Auction.id a /\
       Auction.nftId a' = Auction.nftId a /\
       Auction.seller a' = Auction.seller a /\
       Auction.startingPrice a' = Auction.startingPrice a /\
       Auction.reservePrice a' = Auction.reservePrice a /\
       Auction.startTime a' = Auction.startTime a /\
       Auction.endTime a' = Auction.endTime a /\
       Auction.status a' = Auction.status a /\
       Auction.totalBids a' = Auction.totalBids a) /\
  (forall k j b, getAuctionBids k st !! j = Some b ->
     getAuctionBids k (store (cancelBid wallet bidId st)) !! j = Some b \/
     getAuctionBids k (store (cancelBid wallet bidId st)) !! j =
       Some (Bid.set_status Bid.cancelled b)) /\
  (forall k, length (getAuctionBids k (store (cancelBid wallet bidId st))) =
             length (getAuctionBids k st)).
Proof.
  intros Hnd.
  destruct (cancelBid_cases wallet bidId st)
    as [[_ ->]|(pk & aid & i & fb & a0 & Hw & Hf & Hne & Hget & Hs)].
  { split; [|split]; eauto 12. }
  destruct (cancelBid_success wallet bidId st pk aid i fb a0 Hw Hf Hne Hget Hs)
    as (_ & _ & Hb & Ha).
  apply find_bid_Some in Hf as (bs & Hbs & Hi & _); [|exact Hnd].
  unfold getAuction, getAuctionBids. rewrite Ha, Hb. clear Ha Hb.
  split; [|split].
  - intros k a Hk. rewrite get_alter.
    destruct (String.eqb aid k) eqn:E; [|eauto 12].
    apply String.eqb_eq in E. subst k. rewrite Hk. simpl.
    eexists. split; [reflexivity|]. apply recompute_highest_fields.
  - intros k j b. rewrite get_alter.
    destruct (String.eqb aid k) eqn:E; [|auto].
    apply String.eqb_eq in E. subst k. rewrite Hbs. simpl. intros Hj.
    destruct (decide (i = j)) as [->|Hij].
    + right. assert (b = fb) as -> by congruence.
      apply list_lookup_insert_eq. eapply lookup_lt_Some, Hj.
    + left. rewrite list_lookup_insert_ne by exact Hij. exact Hj.
  - intros k. rewrite get_alter.
    destruct (String.eqb aid k) eqn:E; [|reflexivity].
    apply String.eqb_eq in E. subst k. rewrite Hbs. simpl.
    apply length_insert.
Qed.

Lemma cancelBid_only_marks_witness :
  length (getAuctionBids "a1" (store (cancelBid carol "b2" scenario_D))) =
  length (getAuctionBids "a1" scenario_D).
Proof.
  assert (Hnd : NoDup (JsMap.keys (bids scenario_D))).
  { vm_compute. apply NoDup_singleton. }
  exact (proj2 (proj2 (cancelBid_only_marks carol "b2" scenario_D Hnd)) "a1").
Defined.

(** ** Creating, listing and ending auctions *)

Lemma In_values_get {V} (m : list (string * V)) k v :
  JsMap.get k m = Some v -> In v (JsMap.values m).
Proof.
  intros H. apply get_In in H. unfold JsMap.values.
  apply in_map_iff. exists (k, v). auto.
Qed.

(** X9. [createAuction] without a connected wallet fails and changes
    nothing.  With one it returns an auction under the given id, for the
    given NFT, owned by the caller, active, starting now at [startingPrice]
    with the given reserve, without a highest bid or any bid, that for a
    non-negative duration does not end before it starts; the auction can be
    fetched under its id with an empty bid list, is listed among the active
    auctions and among the caller's auctions in the dashboard, and every
    other auction and bid list is as before. *)
Theorem createAuction_registers uuid now wallet nftId startingPrice durationHours
    reservePrice st :
  match wallet_address wallet with
  | None =>
      createAuction uuid now wallet nftId startingPrice durationHours
                    reservePrice st = fail WalletNotConnected st []
  | Some pk =>
      let out := createAuction uuid now wallet nftId startingPrice durationHours
                               reservePrice st in
      exists a,
        result out = inr a /\
        effects out = [ToastAuctionCreated] /\
        Auction.id a = uuid /\
        Auction.nftId a = nftId /\
        Auction.seller a = pk /\
        Auction.startingPrice a = startingPrice /\
        Auction.currentPrice a = startingPrice /\
        Auction.reservePrice a = reservePrice /\
        Auction.startTime a = now /\
        ((0 <= durationHours)%Q -> (Auction.startTime a <= Auction.endTime a)%Q) /\
        Auction.status a = Auction.active /\
        Auction.highestBid a = None /\
        Auction.totalBids a = 0 /\
        getAuction uuid (store out) = Some a /\
        getAuctionBids uuid (store out) = [] /\
        In a (getActiveAuctions (store out)) /\
        In a (creatorActiveAuctions pk (store out)) /\
        forall k, k <> uuid ->
          getAuction k (store out) = getAuction k st /\
          getAuctionBids k (store out) = getAuctionBids k st
  end.
Proof.
  unfold createAuction. destruct (wallet_address wallet) as [pk|]; [|reflexivity].
  cbv zeta.
  set (a := Auction.mk uuid nftId pk startingPrice startingPrice reservePrice
                       now (now + durationHours * 60 * 60 * 1000)%Q
                       Auction.active None 0).
  exists a. unfold getAuction, getAuctionBids. simpl.
  rewrite !get_set, String.eqb_refl. simpl.
  assert (Hact : In a (getActiveAuctions
                         {| auctions := JsMap.set uuid a (auctions st);
                            bids := JsMap.set uuid [] (bids st) |})).
  { unfold getActiveAuctions. apply filter_In. split; [|reflexivity].
    apply In_values_get with (k := uuid). simpl.
    rewrite get_set, String.eqb_refl. reflexivity. }
  do 9 (split; [reflexivity|]).
  split; [intros Hd; lra|].
  do 5 (split; [reflexivity|]).
  split; [exact Hact|]. split.
  - unfold creatorActiveAuctions. apply filter_In. split; [exact Hact|].
    simpl. apply String.eqb_refl.
  - intros k Hk. rewrite !get_set.
    apply not_eq_sym, String.eqb_neq in Hk. rewrite Hk. auto.
Qed.

Lemma In_alter {V} (f : V -> V) (m : list (string * V)) aid k v' :
  NoDup (JsMap.keys m) ->
  In (k, v') (JsMap.alter f aid m) <->
  (k <> aid /\ In (k, v') m) \/
  (k = aid /\ exists v, In (aid, v) m /\ v' = f v).
Proof.
  unfold JsMap.keys.
  induction m as [|[k0 v0] m IH]; simpl; intros Hnd.
  - split; [tauto|]. intros [[_ []]|(_ & v & [] & _)].
  - apply NoDup_cons in Hnd as [Hk Hnd].
    assert (Hfresh : forall v, ~ In (k0, v) m).
    { intros v Hin. apply Hk, list_elem_of_In.
      apply (in_map fst) in Hin. exact Hin. }
    destruct (String.eqb k0 aid) eqn:E; simpl.
    + apply String.eqb_eq in E. subst k0. split.
      * intros [[= <- <-]|Hin]; [right; eauto|].
        left. split; [|auto]. intros ->. exact (Hfresh _ Hin).
      * intros [[Hne [[= ? ?]|Hin]]|(-> & v & [[= ->]|Hin] & ->)];
          [congruence|auto|auto|].
        exfalso. exact (Hfresh _ Hin).
    + apply String.eqb_neq in E. rewrite (IH Hnd). split.
      * intros [[= <- <-]|[[Hne Hin]|(-> & v & Hin & ->)]]; [auto|auto|].
        right. eauto.
      * intros [[Hne [Heq|Hin]]|(-> & v & [[= ? ?]|Hin] & ->)];
          [auto|auto|congruence|].
        right. right. eauto.
Qed.

Lemma stored_under_own_id ops k a :
  JsMap.get k (auctions (run ops empty)) = Some a -> Auction.id a = k.
Proof.
  revert k a. apply (holds_in_run (fun k a _ => Auction.id a = k)).
  - reflexivity.
  - intros k a bs bid H _ _ _ _. exact H.
  - intros k a bs H. exact H.
  - intros k a bs i fb H _ _. rewrite <- H. apply recompute_highest_fields.
Qed.

(** X10. After any sequence of calls, a successful [endAuction] takes the
    auction out of [getActiveAuctions] and changes that list in no other way;
    [getAllAuctions] keeps its length and the bid lists are untouched. *)
Theorem endAuction_unlists ops auctionId :
  succeeded (endAuction auctionId (run ops empty)) = true ->
  (forall a, In a (getActiveAuctions (store (endAuction auctionId (run ops empty)))) ->
             Auction.id a <> auctionId) /\
  (forall a, Auction.id a <> auctionId ->
     (In a (getActiveAuctions (store (endAuction auctionId (run ops empty)))) <->
      In a (getActiveAuctions (run ops empty)))) /\
  length (getAllAuctions (store (endAuction auctionId (run ops empty)))) =
    length (getAllAuctions (run ops empty)) /\
  bids (store (endAuction auctionId (run ops empty))) = bids (run ops empty).
Proof.
  set (st := run ops empty).
  destruct (store_ok_run ops empty store_ok_empty) as (Hnd & _ & _). fold st in Hnd.
  assert (Hid : forall k a, In (k, a) (auctions st) -> Auction.id a = k).
  { intros k a Hin. apply (stored_under_own_id ops). apply In_get; assumption. }
  unfold endAuction, succeeded.
  destruct (JsMap.get auctionId (auctions st)) as [a0|] eqn:Hget; [|discriminate].
  destruct (negb (Auction.is_active a0)); [discriminate|]. simpl. intros _.
  unfold getActiveAuctions, getAllAuctions, JsMap.values. simpl.
  split; [|split; [|split]].
  - intros a Ha. apply filter_In in Ha as [Ha Hact].
    apply in_map_iff in Ha as ([k a'] & Heq & Hin). simpl in Heq. subst a'.
    apply In_alter in Hin as [[Hne Hin]|(-> & v & Hin & ->)]; [| |exact Hnd].
    + rewrite (Hid k a Hin). exact Hne.
    + discriminate.
  - intros a Hne. rewrite !filter_In, !in_map_iff. split.
    + intros [([k a'] & Heq & Hin) Hact]. simpl in Heq. subst a'.
      split; [|exact Hact].
      apply In_alter in Hin as [[_ Hin]|(-> & v & Hin & ->)]; [| |exact Hnd].
      * exists (k, a). auto.
      * discriminate.
    + intros [([k a'] & Heq & Hin) Hact]. simpl in Heq. subst a'.
      split; [|exact Hact]. exists (k, a). split; [reflexivity|].
      apply In_alter; [exact Hnd|]. left. split; [|exact Hin].
      rewrite <- (Hid k a Hin). exact Hne.
  - rewrite !length_map. clear.
    induction (auctions st) as [|[k0 v0] m IH]; simpl; [reflexivity|].
    destruct (String.eqb k0 auctionId); simpl; [reflexivity|]. rewrite IH.
    reflexivity.
  - reflexivity.
Qed.

Lemma endAuction_unlists_witness :
  getActiveAuctions (store (endAuction "a1" scenario_D)) = [] /\
  length (getAllAuctions (store (endAuction "a1" scenario_D))) = 1%nat.
Proof.
  pose proof (endAuction_unlists
    (open_auction ++ [OpPlaceBid 10 confirms "b1" 11 bob "a1" 2;
                      OpPlaceBid 20 confirms "b2" 21 carol "a1" 3]) "a1" eq_refl)
    as (_ & _ & Hlen & _).
  split; [reflexivity|]. exact (eq_trans Hlen eq_refl).
Defined.

(** ** The countdown of the auction card *)

Lemma floor_div_spec (x c : Q) :
  (0 < c)%Q ->
  (c * inject_Z (Qfloor (x / c)) <= x)%Q /\
  (x < c * inject_Z (Qfloor (x / c)) + c)%Q.
Proof.
  intros Hc.
  assert (Hx : (x == x / c * c)%Q) by (field; lra).
  pose proof (Qfloor_le (x / c)) as Hlo.
  pose proof (Qlt_floor (x / c)) as Hhi.
  rewrite inject_Z_plus in Hhi. change (inject_Z 1) with 1%Q in Hhi.
  set (q := (x / c)%Q) in *. set (z := inject_Z (Qfloor q)) in *.
  assert (H1 : (z * c <= q * c)%Q) by (apply Qmult_le_compat_r; lra).
  assert (H2 : (q * c < (z + 1) * c)%Q) by (apply Qmult_lt_compat_r; lra).
  split; lra.
Qed.

Lemma js_mod_positive (a b : Q) :
  (0 <= a)%Q -> (0 < b)%Q ->
  (js_mod a b == a - b * inject_Z (Qfloor (a / b)))%Q /\
  (0 <= js_mod a b)%Q /\ (js_mod a b < b)%Q.
Proof.
  intros Ha Hb. unfold js_mod, js_trunc.
  assert (Hq : (0 <= a / b)%Q).
  { apply Qle_shift_div_l; lra. }
  apply Qle_bool_iff in Hq. rewrite Hq.
  destruct (floor_div_spec a b Hb) as [Hlo Hhi].
  split; [reflexivity|]. split; lra.
Qed.

Lemma Zlt_of_Qlt (x y : Z) : (inject_Z x < inject_Z y)%Q -> (x < y)%Z.
Proof. rewrite <- Zlt_Qlt. auto. Qed.

(** X11. The countdown is a correct reading of the time left
    [t = endTime - now]: "Ended" is shown exactly when [t <= 0]; "[d]d [h]h"
    when at least a day is left, with [0 <= h < 24] and [t] within the hour
    that starts at [d] days and [h] hours; "[h]h [m]m" when less than a
    day but at least an hour is left, with [0 <= m < 60] and [t] within that
    minute; "[m]m" when less than an hour is left, which is "0m" during the
    last minute. *)
Theorem updateTimeLeft_reads_time_left now auction :
  match updateTimeLeft now auction with
  | Ended => (Auction.endTime auction - now <= 0)%Q
  | DaysHours days hours =>
      (1 <= days)%Z /\ (0 <= hours < 24)%Z /\
      (86400000 * inject_Z days + 3600000 * inject_Z hours
         <= Auction.endTime auction - now)%Q /\
      (Auction.endTime auction - now
         < 86400000 * inject_Z days + 3600000 * inject_Z hours + 3600000)%Q
  | HoursMinutes hours minutes =>
      (1 <= hours < 24)%Z /\ (0 <= minutes < 60)%Z /\
      (3600000 * inject_Z hours + 60000 * inject_Z minutes
         <= Auction.endTime auction - now)%Q /\
      (Auction.endTime auction - now
         < 3600000 * inject_Z hours + 60000 * inject_Z minutes + 60000)%Q
  | MinutesOnly minutes =>
      (0 <= minutes < 60)%Z /\
      (0 < Auction.endTime auction - now)%Q /\
      (60000 * inject_Z minutes <= Auction.endTime auction - now)%Q /\
      (Auction.endTime auction - now < 60000 * inject_Z minutes + 60000)%Q
  end.
Proof.
  unfold updateTimeLeft, js_floor.
  set (t := (Auction.endTime auction - now)%Q).
  destruct (num_le t 0) eqn:Ht; [apply num_le_true, Ht|].
  apply num_le_false in Ht.
  destruct (floor_div_spec t (1000 * 60 * 60 * 24)) as [Hd1 Hd2]; [lra|].
  destruct (js_mod_positive t (1000 * 60 * 60 * 24))
    as (Hr1 & Hr1lo & Hr1hi); [lra|lra|].
  destruct (floor_div_spec (js_mod t (1000 * 60 * 60 * 24)) (1000 * 60 * 60))
    as [Hh1 Hh2]; [lra|].
  destruct (floor_div_spec t (1000 * 60 * 60)) as [Hhh1 Hhh2]; [lra|].
  destruct (js_mod_positive t (1000 * 60 * 60))
    as (Hr2 & Hr2lo & Hr2hi); [lra|lra|].
  destruct (floor_div_spec (js_mod t (1000 * 60 * 60)) (1000 * 60))
    as [Hm1 Hm2]; [lra|].
  set (d := Qfloor (t / (1000 * 60 * 60 * 24))) in *.
  set (h := Qfloor (js_mod t (1000 * 60 * 60 * 24) / (1000 * 60 * 60))) in *.
  set (hh := Qfloor (t / (1000 * 60 * 60))) in *.
  set (m := Qfloor (js_mod t (1000 * 60 * 60) / (1000 * 60))) in *.
  set (r1 := js_mod t (1000 * 60 * 60 * 24)) in *.
  set (r2 := js_mod t (1000 * 60 * 60)) in *.
  assert (Hd0 : (-1 < d)%Z)
    by (apply Zlt_of_Qlt; change (inject_Z (-1)) with (-1)%Q; lra).
  assert (Hh0 : (-1 < h)%Z)
    by (apply Zlt_of_Qlt; change (inject_Z (-1)) with (-1)%Q; lra).
  assert (Hh24 : (h < 24)%Z)
    by (apply Zlt_of_Qlt; change (inject_Z 24) with 24%Q; lra).
  assert (Hm0 : (-1 < m)%Z)
    by (apply Zlt_of_Qlt; change (inject_Z (-1)) with (-1)%Q; lra).
  assert (Hm60 : (m < 60)%Z)
    by (apply Zlt_of_Qlt; change (inject_Z 60) with 60%Q; lra).
  destruct (0 <? d)%Z eqn:Ed.
  - apply Z.ltb_lt in Ed. split; [lia|]. split; [lia|]. split; lra.
  - apply Z.ltb_ge in Ed. assert (d = 0%Z) as Hdz by lia.
    rewrite Hdz in *. change (inject_Z 0) with 0%Q in *.
    assert (Hsame : hh = h).
    { assert ((hh < h + 1)%Z).
      { apply Zlt_of_Qlt. rewrite inject_Z_plus.
        change (inject_Z 1) with 1%Q. lra. }
      assert ((h < hh + 1)%Z).
      { apply Zlt_of_Qlt. rewrite inject_Z_plus.
        change (inject_Z 1) with 1%Q. lra. }
      lia. }
    rewrite Hsame in *.
    destruct (0 <? h)%Z eqn:Eh.
    + apply Z.ltb_lt in Eh. split; [lia|]. split; [lia|]. split; lra.
    + apply Z.ltb_ge in Eh. assert (h = 0%Z) as Hhz by lia.
      rewrite Hhz in *. change (inject_Z 0) with 0%Q in *.
      split; [lia|]. split; [exact Ht|]. split; lra.
Qed.

Lemma updateTimeLeft_parts_Ended now auction :
  updateTimeLeft now auction = Ended <-> (Auction.endTime auction <= now)%Q.
Proof.
  unfold updateTimeLeft.
  destruct (num_le (Auction.endTime auction - now) 0) eqn:Ht.
  - apply num_le_true in Ht. split; [lra|reflexivity].
  - apply num_le_false in Ht. split; [|lra].
    destruct (0 <? _)%Z; [discriminate|].
    destruct (0 <? _)%Z; discriminate.
Qed.

(** X12. Expiry is enforced by [placeBid] alone, and one instant later than
    the card announces it.  For an active auction and a connected wallet:
    [placeBid] answers "Auction has ended" exactly when [now > endTime],
    while the card shows "Ended" exactly when [now >= endTime]; and an
    auction whose end time has passed is still listed by [getActiveAuctions]
    and is still closed successfully by [endAuction]. *)
Theorem expiry_only_in_placeBid now confirmed uuid now' wallet auctionId bidAmount
    st a pk :
  getAuction auctionId st = Some a ->
  Auction.status a = Auction.active ->
  wallet_address wallet = Some pk ->
  (result (placeBid now confirmed uuid now' wallet auctionId bidAmount st)
     = inl AuctionExpired <-> (Auction.endTime a < now)%Q) /\
  (updateTimeLeft now a = Ended <-> (Auction.endTime a <= now)%Q) /\
  In a (getActiveAuctions st) /\
  succeeded (endAuction auctionId st) = true.
Proof.
  unfold getAuction. intros Hget Hs Hw. split; [|split; [|split]].
  - unfold placeBid, placeBid_validate. rewrite Hw, Hget.
    unfold Auction.is_active. rewrite Hs. simpl.
    destruct (num_gt now (Auction.endTime a)) eqn:Et.
    + apply num_gt_true in Et. simpl. tauto.
    + apply num_gt_false in Et.
      destruct (num_le bidAmount (Auction.currentPrice a)); simpl.
      * split; [discriminate|lra].
      * unfold placeBid_commit. destruct (negb _); simpl;
          (split; [discriminate|lra]).
  - pose proof (updateTimeLeft_parts_Ended now a) as H. exact H.
  - unfold getActiveAuctions. apply filter_In.
    split; [eapply In_values_get, Hget|].
    unfold Auction.is_active. rewrite Hs. reflexivity.
  - unfold endAuction, succeeded. rewrite Hget.
    unfold Auction.is_active. rewrite Hs. reflexivity.
Qed.

Lemma expiry_only_in_placeBid_witness :
  exists a,
    getAuction "a1" scenario_A = Some a /\
    updateTimeLeft 86400000 a = Ended /\
    succeeded (placeBid 86400000 confirms "b2" 86400001 carol "a1" 2 scenario_A) = true.
Proof.
  eexists. split; [reflexivity|]. split; [|reflexivity].
  apply (proj2 (proj1 (proj2
    (expiry_only_in_placeBid 86400000 confirms "b2" 86400001 carol "a1" 2
       scenario_A _ "carol" eq_refl eq_refl eq_refl)))).
  simpl. lra.
Defined.

(** * Favorites *)

Lemma existsb_find {A} (p : A -> bool) (l : list A) :
  existsb p l = match List.find p l with Some _ => true | None => false end.
Proof.
  induction l as [|x l IH]; simpl; [reflexivity|].
  destruct (p x); [reflexivity|exact IH].
Qed.

Lemma filter_out_length {A} (p : A -> bool) (l : list A) :
  Nat.eqb (length (List.filter (fun x => negb (p x)) l)) (length l) =
  negb (existsb p l).
Proof.
  induction l as [|x l IH]; simpl; [reflexivity|].
  destruct (p x); simpl.
  - apply Nat.eqb_neq.
    pose proof (List.filter_length_le (fun x => negb (p x)) l). lia.
  - exact IH.
Qed.

Lemma filter_out_none {A} (p : A -> bool) (l : list A) :
  existsb p l = false -> List.filter (fun x => negb (p x)) l = l.
Proof.
  induction l as [|x l IH]; simpl; [reflexivity|].
  destruct (p x); simpl; [discriminate|]. intros H. rewrite IH; auto.
Qed.

Lemma existsb_filter_out {A} (p q : A -> bool) (l : list A) :
  (forall x, q x = true -> p x = false) ->
  existsb q (List.filter (fun x => negb (p x)) l) = existsb q l.
Proof.
  intros Hpq. induction l as [|x l IH]; simpl; [reflexivity|].
  destruct (p x) eqn:Ep; simpl.
  - destruct (q x) eqn:Eq; [|exact IH].
    rewrite (Hpq x Eq) in Ep. discriminate.
  - rewrite IH. reflexivity.
Qed.

Lemma existsb_filter_out_same {A} (p : A -> bool) (l : list A) :
  existsb p (List.filter (fun x => negb (p x)) l) = false.
Proof.
  induction l as [|x l IH]; simpl; [reflexivity|].
  destruct (p x) eqn:Ep; simpl; [exact IH|]. rewrite Ep. exact IH.
Qed.

Lemma is_nft_other n nft fav :
  n <> nft ->
  FavoritesService.is_nft n fav = true -> FavoritesService.is_nft nft fav = false.
Proof.
  unfold FavoritesService.is_nft. intros Hne H.
  apply String.eqb_eq in H. apply String.eqb_neq. congruence.
Qed.

(** X13. [addToFavorites] returns [true] exactly when the NFT was not a
    favorite of the user; afterwards it is one in either case; a call that
    returns [false] changes nothing; and no other user's favorites and no
    other NFT's standing with this user change. *)
Theorem addToFavorites_adds uuid now user nft favorites :
  fst (fst (FavoritesService.addToFavorites uuid now user nft favorites)) =
    negb (FavoritesService.isFavorited user nft favorites) /\
  FavoritesService.isFavorited user nft
    (snd (FavoritesService.addToFavorites uuid now user nft favorites)) = true /\
  (fst (fst (FavoritesService.addToFavorites uuid now user nft favorites)) = false ->
   snd (FavoritesService.addToFavorites uuid now user nft favorites) = favorites) /\
  (forall u, u <> user ->
     FavoritesService.getUserFavorites u
       (snd (FavoritesService.addToFavorites uuid now user nft favorites)) =
     FavoritesService.getUserFavorites u favorites) /\
  (forall n, n <> nft ->
     FavoritesService.isFavorited user n
       (snd (FavoritesService.addToFavorites uuid now user nft favorites)) =
     FavoritesService.isFavorited user n favorites).
Proof.
  unfold FavoritesService.addToFavorites, FavoritesService.isFavorited,
    FavoritesService.getUserFavorites.
  rewrite existsb_find.
  destruct (List.find (FavoritesService.is_nft nft)
              (default [] (JsMap.get user favorites))) as [existing|] eqn:Ef; simpl.
  - rewrite existsb_find, Ef. auto.
  - split; [reflexivity|]. rewrite get_set, String.eqb_refl. simpl.
    split.
    { rewrite existsb_app. simpl. unfold FavoritesService.is_nft at 2. simpl.
      rewrite String.eqb_refl. apply orb_true_iff. auto. }
    split; [discriminate|]. split.
    + intros u Hu. rewrite get_set.
      apply not_eq_sym, String.eqb_neq in Hu. rewrite Hu. reflexivity.
    + intros n Hn.
      rewrite existsb_app. simpl. unfold FavoritesService.is_nft at 2. simpl.
      apply not_eq_sym, String.eqb_neq in Hn. rewrite Hn.
      rewrite !orb_false_r. reflexivity.
Qed.

(** X14. [removeFromFavorites] returns [true] exactly when the NFT was a
    favorite of the user; afterwards it is none in either case; a call that
    returns [false] changes nothing; and no other user's favorites and no
    other NFT's standing with this user change. *)
Theorem removeFromFavorites_removes user nft favorites :
  fst (fst (FavoritesService.removeFromFavorites user nft favorites)) =
    FavoritesService.isFavorited user nft favorites /\
  FavoritesService.isFavorited user nft
    (snd (FavoritesService.removeFromFavorites user nft favorites)) = false /\
  (fst (fst (FavoritesService.removeFromFavorites user nft favorites)) = false ->
   snd (FavoritesService.removeFromFavorites user nft favorites) = favorites) /\
  (forall u, u <> user ->
     FavoritesService.getUserFavorites u
       (snd (FavoritesService.removeFromFavorites user nft favorites)) =
     FavoritesService.getUserFavorites u favorites) /\
  (forall n, n <> nft ->
     FavoritesService.isFavorited user n
       (snd (FavoritesService.removeFromFavorites user nft favorites)) =
     FavoritesService.isFavorited user n favorites).
Proof.
  unfold FavoritesService.removeFromFavorites, FavoritesService.isFavorited,
    FavoritesService.getUserFavorites.
  change (fun fav => negb (String.eqb (FavoritesService.nftId fav) nft))
    with (fun fav => negb (FavoritesService.is_nft nft fav)).
  rewrite filter_out_length.
  destruct (existsb (FavoritesService.is_nft nft)
              (default [] (JsMap.get user favorites))) eqn:Ee; simpl.
  - split; [reflexivity|]. rewrite get_set, String.eqb_refl. simpl.
    split; [apply existsb_filter_out_same|]. split; [discriminate|]. split.
    + intros u Hu. rewrite get_set.
      apply not_eq_sym, String.eqb_neq in Hu. rewrite Hu. reflexivity.
    + intros n Hn.
      apply existsb_filter_out. intros fav. apply is_nft_other, Hn.
  - auto.
Qed.

Lemma find_none_not_in nft (l : list FavoritesService.FavoriteItem) :
  List.find (FavoritesService.is_nft nft) l = None ->
  nft ∉ map FavoritesService.nftId l.
Proof.
  induction l as [|x l IH]; simpl; intros H; [apply not_elem_of_nil|].
  unfold FavoritesService.is_nft in H at 1.
  destruct (String.eqb (FavoritesService.nftId x) nft) eqn:E; [discriminate|].
  apply String.eqb_neq in E. apply not_elem_of_cons. auto.
Qed.

Lemma NoDup_map_filter {A B} (f : A -> B) (p : A -> bool) (l : list A) :
  NoDup (map f l) -> NoDup (map f (List.filter p l)).
Proof.
  induction l as [|x l IH]; simpl; intros H; [exact H|].
  apply NoDup_cons in H as [Hx H].
  destruct (p x); simpl; [|auto].
  apply NoDup_cons. split; [|auto].
  intros Hin. apply Hx. apply list_elem_of_In in Hin. apply list_elem_of_In.
  apply in_map_iff in Hin as (y & Hy & Hin). apply in_map_iff.
  exists y. apply filter_In in Hin. tauto.
Qed.

Lemma favorites_step_keeps op favorites :
  (forall u,
     NoDup (map FavoritesService.nftId (FavoritesService.getUserFavorites u favorites)) /\
     Forall (fun fav => FavoritesService.userAddress fav = u)
            (FavoritesService.getUserFavorites u favorites)) ->
  forall u,
    NoDup (map FavoritesService.nftId
             (FavoritesService.getUserFavorites u (FavoritesService.step op favorites))) /\
    Forall (fun fav => FavoritesService.userAddress fav = u)
           (FavoritesService.getUserFavorites u (FavoritesService.step op favorites)).
Proof.
  intros H u. unfold FavoritesService.getUserFavorites in *.
  destruct op as [uuid now user nft|user nft]; simpl.
  - unfold FavoritesService.addToFavorites.
    destruct (List.find _ _) as [existing|] eqn:Ef; simpl; [apply H|].
    rewrite get_set. destruct (String.eqb user u) eqn:E; [|apply H].
    apply String.eqb_eq in E. subst u. simpl.
    destruct (H user) as [Hnd Hall]. split.
    + rewrite map_app. apply NoDup_app. split; [exact Hnd|]. split.
      * intros x Hx Hx'. simpl in Hx'. apply list_elem_of_singleton in Hx'.
        subst x. exact (find_none_not_in _ _ Ef Hx).
      * apply NoDup_singleton.
    + apply Forall_app. split; [exact Hall|]. repeat constructor.
  - unfold FavoritesService.removeFromFavorites.
    destruct (Nat.eqb _ _); simpl; [apply H|].
    rewrite get_set. destruct (String.eqb user u) eqn:E; [|apply H].
    apply String.eqb_eq in E. subst u. simpl.
    destruct (H user) as [Hnd Hall]. split.
    + apply NoDup_map_filter, Hnd.
    + apply List.Forall_forall. intros fav Hin. apply filter_In in Hin as [Hin _].
      rewrite List.Forall_forall in Hall. auto.
Qed.

(** X15. After any sequence of [addToFavorites] and [removeFromFavorites]
    calls, a user's favorites hold each NFT at most once, and every item is
    filed under the user it names. *)
Theorem favorites_hold_each_nft_once ops user :
  NoDup (map FavoritesService.nftId
           (FavoritesService.getUserFavorites user (FavoritesService.run ops []))) /\
  Forall (fun fav => FavoritesService.userAddress fav = user)
         (FavoritesService.getUserFavorites user (FavoritesService.run ops [])).
Proof.
  assert (H : forall favorites,
    (forall u,
       NoDup (map FavoritesService.nftId
                (FavoritesService.getUserFavorites u favorites)) /\
       Forall (fun fav => FavoritesService.userAddress fav = u)
              (FavoritesService.getUserFavorites u favorites)) ->
    forall u,
      NoDup (map FavoritesService.nftId
               (FavoritesService.getUserFavorites u
                  (FavoritesService.run ops favorites))) /\
      Forall (fun fav => FavoritesService.userAddress fav = u)
             (FavoritesService.getUserFavorites u
                (FavoritesService.run ops favorites))).
  { unfold FavoritesService.run.
    induction ops as [|op ops IH]; simpl; intros favorites Hf; [exact Hf|].
    apply IH. apply favorites_step_keeps, Hf. }
  apply H. intros u. split; constructor.
Qed.

(** X16. Adding an NFT that is not yet a favorite and removing it again
    gives back every user's list of favorites as it was; both calls return
    [true]. *)
Theorem add_then_remove_restores uuid now user nft favorites :
  FavoritesService.isFavorited user nft favorites = false ->
  fst (fst (FavoritesService.addToFavorites uuid now user nft favorites)) = true /\
  fst (fst (FavoritesService.removeFromFavorites user nft
         (snd (FavoritesService.addToFavorites uuid now user nft favorites)))) = true /\
  forall u,
    FavoritesService.getUserFavorites u
      (snd (FavoritesService.removeFromFavorites user nft
         (snd (FavoritesService.addToFavorites uuid now user nft favorites)))) =
    FavoritesService.getUserFavorites u favorites.
Proof.
  unfold FavoritesService.isFavorited. intros Hno.
  unfold FavoritesService.addToFavorites.
  pose proof (existsb_find (FavoritesService.is_nft nft)
                (default [] (JsMap.get user favorites))) as Hfind.
  rewrite Hno in Hfind.
  destruct (List.find _ _) as [existing|]; [discriminate|]. simpl.
  split; [reflexivity|].
  unfold FavoritesService.removeFromFavorites, FavoritesService.getUserFavorites.
  change (fun fav => negb (String.eqb (FavoritesService.nftId fav) nft))
    with (fun fav => negb (FavoritesService.is_nft nft fav)).
  assert (Hfav : FavoritesService.is_nft nft
            {| FavoritesService.id := uuid; FavoritesService.userAddress := user;
               FavoritesService.nftId := nft; FavoritesService.addedAt := now |}
          = true) by apply String.eqb_refl.
  rewrite filter_out_length, get_set, String.eqb_refl. simpl.
  rewrite existsb_app. simpl. rewrite Hfav, orb_true_r. simpl.
  split; [reflexivity|]. intros u. rewrite get_set.
  destruct (String.eqb user u) eqn:E.
  - apply String.eqb_eq in E. subst u. simpl.
    rewrite List.filter_app. simpl. rewrite Hfav. simpl. rewrite app_nil_r.
    apply filter_out_none, Hno.
  - rewrite get_set, E. reflexivity.
Qed.

Lemma add_then_remove_restores_witness :
  FavoritesService.getUserFavorites "bob"
    (snd (FavoritesService.removeFromFavorites "bob" "nft2"
       (snd (FavoritesService.addToFavorites "f2" 5 "bob" "nft2"
          (FavoritesService.run [FavoritesService.OpAdd "f1" 1 "bob" "nft1"] []))))) =
  FavoritesService.getUserFavorites "bob"
    (FavoritesService.run [FavoritesService.OpAdd "f1" 1 "bob" "nft1"] []).
Proof.
  exact (proj2 (proj2 (add_then_remove_restores "f2" 5 "bob" "nft2"
    (FavoritesService.run [FavoritesService.OpAdd "f1" 1 "bob" "nft1"] [])
    eq_refl)) "bob").
Defined.

Lemma getFavoriteStats_loop now nft (lists : list (list FavoritesService.FavoriteItem)) :
  forall total recent,
    let out :=
      fold_left
        (fun '(totalFavorites, recentFavorites) userFavorites =>
           match List.find (FavoritesService.is_nft nft) userFavorites with
           | Some nftFavorite =>
               (S totalFavorites,
                if num_gt (FavoritesService.addedAt nftFavorite)
                          (now - 7 * 24 * 60 * 60 * 1000)%Q
                then S recentFavorites else recentFavorites)
           | None => (totalFavorites, recentFavorites)
           end)
        lists (total, recent) in
    fst out =
      (total + length (List.filter (existsb (FavoritesService.is_nft nft)) lists))%nat /\
    (recent <= snd out)%nat /\
    (snd out - recent <= fst out - total)%nat.
Proof.
  induction lists as [|l lists IH]; intros total recent; simpl.
  - repeat split; lia.
  - rewrite existsb_find.
    destruct (List.find (FavoritesService.is_nft nft) l) as [fav|]; simpl.
    + destruct (num_gt _ _);
        [destruct (IH (S total) (S recent)) as (H1 & H2 & H3)
        |destruct (IH (S total) recent) as (H1 & H2 & H3)];
        simpl in *; repeat split; lia.
    + apply IH.
Qed.

Lemma count_by_keys nft (favorites : list (string * list FavoritesService.FavoriteItem)) :
  NoDup (JsMap.keys favorites) ->
  length (List.filter (existsb (FavoritesService.is_nft nft)) (JsMap.values favorites)) =
  length (List.filter (fun u => FavoritesService.isFavorited u nft favorites)
                      (JsMap.keys favorites)).
Proof.
  unfold JsMap.keys, JsMap.values, FavoritesService.isFavorited.
  induction favorites as [|[k0 l0] m IH]; simpl; intros Hnd; [reflexivity|].
  apply NoDup_cons in Hnd as [Hk Hnd]. rewrite String.eqb_refl. simpl.
  assert (Hext : List.filter
            (fun u => existsb (FavoritesService.is_nft nft)
                        (default [] (if String.eqb k0 u then Some l0
                                     else JsMap.get u m))) (map fst m) =
          List.filter
            (fun u => existsb (FavoritesService.is_nft nft)
                        (default [] (JsMap.get u m))) (map fst m)).
  { apply List.filter_ext_in. intros u Hu.
    destruct (String.eqb k0 u) eqn:E; [|reflexivity].
    apply String.eqb_eq in E. subst u. exfalso. apply Hk, list_elem_of_In, Hu. }
  rewrite Hext.
  destruct (existsb (FavoritesService.is_nft nft) l0); simpl; rewrite IH; auto.
Qed.

(** X17. [getFavoriteStats] counts users, not items: [totalFavorites] is
    the number of users who hold the NFT among their favorites, and
    [recentFavorites] never exceeds it. *)
Theorem getFavoriteStats_counts_users now nft favorites :
  NoDup (JsMap.keys favorites) ->
  fst (FavoritesService.getFavoriteStats now nft favorites) =
    length (List.filter (fun u => FavoritesService.isFavorited u nft favorites)
                        (JsMap.keys favorites)) /\
  (snd (FavoritesService.getFavoriteStats now nft favorites)
     <= fst (FavoritesService.getFavoriteStats now nft favorites))%nat.
Proof.
  intros Hnd. unfold FavoritesService.getFavoriteStats.
  destruct (getFavoriteStats_loop now nft (JsMap.values favorites) 0 0)
    as (H1 & H2 & H3).
  cbv zeta in *. split.
  - rewrite H1. simpl. apply count_by_keys, Hnd.
  - lia.
Qed.

Lemma getFavoriteStats_counts_users_witness :
  fst (FavoritesService.getFavoriteStats 10 "nft1"
         (FavoritesService.run
            [FavoritesService.OpAdd "f1" 1 "bob" "nft1";
             FavoritesService.OpAdd "f2" 2 "carol" "nft1";
             FavoritesService.OpAdd "f3" 3 "carol" "nft2"] [])) = 2%nat.
Proof.
  assert (Hnd : NoDup (JsMap.keys (FavoritesService.run
       [FavoritesService.OpAdd "f1" 1 "bob" "nft1";
        FavoritesService.OpAdd "f2" 2 "carol" "nft1";
        FavoritesService.OpAdd "f3" 3 "carol" "nft2"] []))).
  { vm_compute. apply NoDup_cons. split; [|apply NoDup_singleton].
    intros H. apply list_elem_of_singleton in H. discriminate. }
  exact (eq_trans (proj1 (getFavoriteStats_counts_users 10 "nft1" _ Hnd)) eq_refl).
Defined.

(** * The auctions page *)

(** X18. The list shown by the auctions page holds only auctions of the
    loaded list and, unless the status filter is "all", only auctions with
    exactly that status; with an empty search term it holds all of those, in
    their order.  The option "upcoming" therefore shows nothing, whatever is
    loaded or searched, no auction having that status. *)
Theorem filterAuctions_by_status toLowerCase includes searchTerm filter auctions :
  (forall a, In a (filterAuctions toLowerCase includes searchTerm filter auctions) ->
     In a auctions /\
     (filter = "all" \/ status_string (Auction.status (listed a)) = filter)) /\
  filterAuctions toLowerCase includes "" filter auctions =
    List.filter
      (fun a => String.eqb filter "all"
                || String.eqb (status_string (Auction.status (listed a))) filter)
      auctions /\
  filterAuctions toLowerCase includes searchTerm "upcoming" auctions = [].
Proof.
  unfold filterAuctions. split; [|split].
  - intros a. destruct (String.eqb filter "all") eqn:Ef; simpl.
    + apply String.eqb_eq in Ef.
      destruct (String.eqb searchTerm ""); [auto|].
      intros Hin. apply filter_In in Hin. tauto.
    + intros Hin. apply filter_In in Hin as [Hin Hs].
      apply String.eqb_eq in Hs. split; [|auto].
      destruct (String.eqb searchTerm ""); [exact Hin|].
      apply filter_In in Hin. tauto.
  - simpl. destruct (String.eqb filter "all") eqn:Ef; simpl.
    + induction auctions as [|a l IH]; simpl; [reflexivity|].
      rewrite <- IH. reflexivity.
    + reflexivity.
  - simpl.
    set (shown := if String.eqb searchTerm "" then auctions else _).
    induction shown as [|a l IH]; simpl; [reflexivity|].
    destruct (Auction.status (listed a)); simpl; exact IH.
Qed.

(** * The most favorited NFTs *)

Lemma count_step nft (counts : list (string * nat))
    (items : list FavoritesService.FavoriteItem) :
  NoDup (JsMap.keys counts) ->
  let counts' :=
    fold_left
      (fun cs favorite =>
         JsMap.set (FavoritesService.nftId favorite)
           (default 0%nat (JsMap.get (FavoritesService.nftId favorite) cs) + 1)%nat
           cs)
      items counts in
  NoDup (JsMap.keys counts') /\
  JsMap.get nft counts' =
    match JsMap.get nft counts,
          length (List.filter (FavoritesService.is_nft nft) items) with
    | None, O => None
    | c, n => Some (default 0%nat c + n)%nat
    end.
Proof.
  revert counts. induction items as [|fav items IH]; intros counts Hnd; simpl.
  - split; [exact Hnd|]. destruct (JsMap.get nft counts); simpl; f_equal; lia.
  - destruct (IH (JsMap.set (FavoritesService.nftId fav)
                    (default 0%nat (JsMap.get (FavoritesService.nftId fav) counts) + 1)%nat
                    counts)) as [Hnd' Hget]; [apply NoDup_keys_set, Hnd|].
    split; [exact Hnd'|]. cbv zeta in Hget. rewrite Hget, get_set.
    change (FavoritesService.is_nft nft fav)
      with (String.eqb (FavoritesService.nftId fav) nft).
    destruct (String.eqb (FavoritesService.nftId fav) nft) eqn:E; simpl.
    + apply String.eqb_eq in E. subst nft.
      destruct (JsMap.get (FavoritesService.nftId fav) counts); simpl;
        destruct (length _); f_equal; lia.
    + reflexivity.
Qed.

Lemma countFavorites_counts nft favorites :
  NoDup (JsMap.keys (FavoritesService.countFavorites favorites)) /\
  JsMap.get nft (FavoritesService.countFavorites favorites) =
    match length (List.filter (FavoritesService.is_nft nft)
                    (List.concat (JsMap.values favorites))) with
    | O => None
    | n => Some n
    end.
Proof.
  unfold FavoritesService.countFavorites.
  assert (H : forall lists counts,
    NoDup (JsMap.keys counts) ->
    let counts' :=
      fold_left
        (fun favoriteCounts userFavorites =>
           fold_left
             (fun cs favorite =>
                JsMap.set (FavoritesService.nftId favorite)
                  (default 0%nat (JsMap.get (FavoritesService.nftId favorite) cs) + 1)%nat
                  cs)
             userFavorites favoriteCounts)
        lists counts in
    NoDup (JsMap.keys counts') /\
    JsMap.get nft counts' =
      match JsMap.get nft counts,
            length (List.filter (FavoritesService.is_nft nft) (List.concat lists)) with
      | None, O => None
      | c, n => Some (default 0%nat c + n)%nat
      end).
  { induction lists as [|l lists IH]; intros counts Hnd; simpl.
    - split; [exact Hnd|]. destruct (JsMap.get nft counts); simpl; f_equal; lia.
    - destruct (count_step nft counts l Hnd) as [Hnd1 Hget1]. cbv zeta in *.
      destruct (IH _ Hnd1) as [Hnd2 Hget2]. split; [exact Hnd2|].
      rewrite Hget2, Hget1, List.filter_app, length_app.
      destruct (JsMap.get nft counts); simpl;
        destruct (length (List.filter _ l)); simpl;
        destruct (length (List.filter _ (List.concat lists))); simpl;
        f_equal; lia. }
  destruct (H (JsMap.values favorites) [] (NoDup_nil_2)) as [Hnd Hget].
  split; [exact Hnd|]. cbv zeta in Hget. rewrite Hget. simpl.
  destruct (length _); reflexivity.
Qed.

Lemma In_insert_by_count x y sorted :
  In y (FavoritesService.insert_by_count x sorted) <-> y = x \/ In y sorted.
Proof.
  induction sorted as [|z rest IH]; simpl; [intuition|].
  destruct (snd z <=? snd x)%nat; simpl; [intuition|].
  rewrite IH. intuition.
Qed.

Lemma In_sort_by_count y entries :
  In y (FavoritesService.sort_by_count entries) <-> In y entries.
Proof.
  unfold FavoritesService.sort_by_count.
  induction entries as [|x l IH]; simpl; [tauto|].
  rewrite In_insert_by_count, IH. intuition.
Qed.

Lemma sorted_insert_by_count x sorted :
  StronglySorted (fun a b => (snd b <= snd a)%nat) sorted ->
  StronglySorted (fun a b => (snd b <= snd a)%nat)
                 (FavoritesService.insert_by_count x sorted).
Proof.
  induction 1 as [|z rest Hs IH Hall]; simpl; [repeat constructor|].
  destruct (snd z <=? snd x)%nat eqn:E.
  - apply Nat.leb_le in E. constructor; [constructor; assumption|].
    constructor; [exact E|].
    rewrite List.Forall_forall in *. intros b Hb. specialize (Hall b Hb). lia.
  - apply Nat.leb_gt in E. constructor; [exact IH|].
    apply List.Forall_forall. intros b Hb.
    apply In_insert_by_count in Hb as [->|Hb]; [lia|].
    rewrite List.Forall_forall in Hall. auto.
Qed.

Lemma keys_insert_by_count x sorted :
  NoDup (JsMap.keys (x :: sorted)) ->
  NoDup (JsMap.keys (FavoritesService.insert_by_count x sorted)).
Proof.
  unfold JsMap.keys.
  induction sorted as [|z rest IH]; simpl; intros H; [exact H|].
  destruct (snd z <=? snd x)%nat; simpl; [exact H|].
  apply NoDup_cons in H as [Hx H]. apply NoDup_cons in H as [Hz H].
  apply not_elem_of_cons in Hx as [Hxz Hx].
  apply NoDup_cons. split.
  - intros Hin. apply list_elem_of_In, in_map_iff in Hin as (y & Hy & Hin).
    apply In_insert_by_count in Hin as [->|Hin]; [congruence|].
    apply Hz, list_elem_of_In, in_map_iff. eauto.
  - apply IH. apply NoDup_cons. auto.
Qed.

Lemma keys_sort_by_count entries :
  NoDup (JsMap.keys entries) ->
  NoDup (JsMap.keys (FavoritesService.sort_by_count entries)).
Proof.
  unfold FavoritesService.sort_by_count, JsMap.keys.
  induction entries as [|x l IH]; simpl; intros H; [exact H|].
  apply NoDup_cons in H as [Hx H].
  apply keys_insert_by_count. unfold JsMap.keys. simpl.
  apply NoDup_cons. split; [|auto].
  intros Hin. apply Hx.
  apply list_elem_of_In, in_map_iff in Hin as (y & Hy & Hin).
  apply list_elem_of_In, in_map_iff. exists y. split; [exact Hy|].
  apply In_sort_by_count, Hin.
Qed.

Lemma sorted_sort_by_count entries :
  StronglySorted (fun a b => (snd b <= snd a)%nat)
                 (FavoritesService.sort_by_count entries).
Proof.
  unfold FavoritesService.sort_by_count.
  induction entries as [|x l IH]; simpl; [constructor|].
  apply sorted_insert_by_count, IH.
Qed.

Lemma sorted_prefix {A} (R : A -> A -> Prop) (p s : list A) :
  StronglySorted R (p ++ s) -> StronglySorted R p.
Proof.
  induction p as [|x p IH]; simpl; intros H; [constructor|].
  inversion H as [|? ? Hs Hall]; subst. constructor; [auto|].
  rewrite List.Forall_forall in *. intros y Hy. apply Hall, in_or_app. auto.
Qed.

Lemma length_sort_by_count entries :
  length (FavoritesService.sort_by_count entries) = length entries.
Proof.
  unfold FavoritesService.sort_by_count.
  induction entries as [|x l IH]; simpl; [reflexivity|]. rewrite <- IH.
  generalize (fold_right FavoritesService.insert_by_count [] l). intros sorted.
  induction sorted as [|z rest IHs]; simpl; [reflexivity|].
  destruct (snd z <=? snd x)%nat; simpl; [reflexivity|]. rewrite IHs. reflexivity.
Qed.

(** X19. [getMostFavorited limit] returns at most [limit] entries, in
    non-increasing order of their count, no NFT twice; the count of an entry
    is the number of favorite items with that NFT over all users and is at
    least one; and when [limit] is not smaller than the number of favorited
    NFTs, every favorited NFT has its entry. *)
Theorem getMostFavorited_ranks limit favorites :
  (length (FavoritesService.getMostFavorited limit favorites) <= limit)%nat /\
  StronglySorted (fun a b => (snd b <= snd a)%nat)
                 (FavoritesService.getMostFavorited limit favorites) /\
  NoDup (JsMap.keys (FavoritesService.getMostFavorited limit favorites)) /\
  (forall nft count,
     In (nft, count) (FavoritesService.getMostFavorited limit favorites) ->
     (1 <= count)%nat /\
     count = length (List.filter (FavoritesService.is_nft nft)
                       (List.concat (JsMap.values favorites)))) /\
  (forall nft,
     (length (FavoritesService.countFavorites favorites) <= limit)%nat ->
     (1 <= length (List.filter (FavoritesService.is_nft nft)
                     (List.concat (JsMap.values favorites))))%nat ->
     In (nft, length (List.filter (FavoritesService.is_nft nft)
                        (List.concat (JsMap.values favorites))))
        (FavoritesService.getMostFavorited limit favorites)).
Proof.
  unfold FavoritesService.getMostFavorited.
  set (counts := FavoritesService.countFavorites favorites).
  set (sorted := FavoritesService.sort_by_count counts).
  assert (Hnd : NoDup (JsMap.keys counts)) by apply (countFavorites_counts "").
  pose proof (firstn_skipn limit sorted) as Hsplit.
  split; [apply firstn_le_length|]. split; [|split; [|split]].
  - apply sorted_prefix with (s := skipn limit sorted). rewrite Hsplit.
    apply sorted_sort_by_count.
  - pose proof (keys_sort_by_count counts Hnd) as Hs. fold sorted in Hs.
    rewrite <- Hsplit in Hs. unfold JsMap.keys in *. rewrite map_app in Hs.
    apply NoDup_app in Hs. tauto.
  - intros nft count Hin.
    assert (Hin' : In (nft, count) counts).
    { apply In_sort_by_count. fold sorted. rewrite <- Hsplit.
      apply in_or_app. auto. }
    apply In_get in Hin'; [|exact Hnd].
    destruct (countFavorites_counts nft favorites) as [_ Hget].
    fold counts in Hget. rewrite Hin' in Hget.
    destruct (length _) as [|n]; [discriminate|].
    injection Hget as ->. split; [lia|reflexivity].
  - intros nft Hlimit Hcount.
    rewrite firstn_all2 by (unfold sorted; rewrite length_sort_by_count; exact Hlimit).
    apply In_sort_by_count, get_In.
    destruct (countFavorites_counts nft favorites) as [_ Hget].
    fold counts in Hget. rewrite Hget.
    destruct (length (List.filter (FavoritesService.is_nft nft)
                        (List.concat (JsMap.values favorites)))) as [|n];
      [lia|reflexivity].
Qed.

(** * Statuses and settlement *)

(** X20. No call ever sets a bid's status to [won] or [outbid], or an
    auction's status to [cancelled]: after any sequence of calls every
    auction is [active] or [ended] and every recorded bid is [active] or
    [cancelled]; a bid that was outbid, or that won, still reads [active]. *)
Theorem statuses_never_assigned ops k a :
  getAuction k (run ops empty) = Some a ->
  (Auction.status a = Auction.active \/ Auction.status a = Auction.ended) /\
  forall b, In b (getAuctionBids k (run ops empty)) ->
    Bid.status b = Bid.active \/ Bid.status b = Bid.cancelled.
Proof.
  revert k a.
  apply (holds_in_run (fun _ a bs =>
    (Auction.status a = Auction.active \/ Auction.status a = Auction.ended) /\
    forall b, In b bs -> Bid.status b = Bid.active \/ Bid.status b = Bid.cancelled)).
  - intros. split; [auto|]. intros b [].
  - intros k a bs bid [Ha Hb] _ _ Hact _. split; [exact Ha|].
    intros b Hin. apply in_app_or in Hin as [Hin|[<-|[]]]; auto.
  - intros k a bs [_ Hb]. split; [auto|exact Hb].
  - intros k a bs i fb [Ha Hb] _ _. split.
    + destruct (recompute_highest_fields (Bid.id fb)
                  (<[i := Bid.set_status Bid.cancelled fb]> bs) a)
        as (_ & _ & _ & _ & _ & _ & _ & -> & _). exact Ha.
    + intros b Hin. apply In_insert in Hin as [->|Hin]; auto.
Qed.

Lemma statuses_never_assigned_witness :
  List.Forall (fun b => Bid.status b = Bid.active \/ Bid.status b = Bid.cancelled)
    (getAuctionBids "a1" closed_auction).
Proof.
  apply List.Forall_forall.
  exact (proj2 (statuses_never_assigned
    (open_auction ++ [OpPlaceBid 10 confirms "b1" 11 bob "a1" 3; OpEndAuction "a1"])
    "a1" _ eq_refl)).
Defined.

(** X21. How [endAuction] settles an active auction that has a highest bid:
    it succeeds, only the status of the auction changes, and it makes exactly
    one call to the payment adapter: [finalizeAuction] when the reserve
    price is a number other than 0 that the highest bid reaches, [refundBid]
    on the highest bid in every other case, a reserve price of 0 or none
    included. *)
Theorem endAuction_settles_by_reserve auctionId st a highest :
  getAuction auctionId st = Some a ->
  Auction.status a = Auction.active ->
  Auction.highestBid a = Some highest ->
  result (endAuction auctionId st) = inr tt /\
  getAuction auctionId (store (endAuction auctionId st)) =
    Some (Auction.set_status Auction.ended a) /\
  bids (store (endAuction auctionId st)) = bids st /\
  ((exists r, Auction.reservePrice a = Some r /\ ~ (r == 0)%Q /\
              (r <= Bid.amount highest)%Q /\
              effects (endAuction auctionId st) =
                [CallFinalizeAuction (Auction.set_status Auction.ended a);
                 ToastEndedTransferred]) \/
   ((Auction.reservePrice a = None \/
     exists r, Auction.reservePrice a = Some r /\
               ((r == 0)%Q \/ (Bid.amount highest < r)%Q)) /\
    effects (endAuction auctionId st) =
      [CallRefundBid highest; ToastEndedReserveNotMet])).
Proof.
  unfold getAuction. intros Hget Hs Hhb.
  destruct (endAuction_settlement auctionId st a highest Hget Hs Hhb)
    as (Hr & Hg & He).
  split; [exact Hr|]. split; [exact Hg|]. split.
  { unfold endAuction. rewrite Hget. unfold Auction.is_active. rewrite Hs.
    reflexivity. }
  rewrite He. destruct (Auction.reservePrice a) as [r|]; [|right; auto].
  destruct (Qeq_bool r 0) eqn:Ez; simpl.
  - apply Qeq_bool_iff in Ez. right. split; [|reflexivity]. right. eauto.
  - apply Qeq_bool_neq in Ez.
    destruct (num_ge (Bid.amount highest) r) eqn:Eg.
    + apply num_ge_true in Eg. left. exists r. auto.
    + right. split; [|reflexivity]. right. exists r. split; [reflexivity|].
      right. unfold num_ge in Eg. apply num_le_false in Eg. exact Eg.
Qed.

Lemma endAuction_settles_by_reserve_witness :
  exists a,
    effects (endAuction "a2" scenario_C) =
      [CallFinalizeAuction a; ToastEndedTransferred].
Proof.
  destruct (endAuction_settles_by_reserve "a2" scenario_C _ _
              eq_refl eq_refl eq_refl) as (_ & _ & _ & H).
  eexists. reflexivity.
Defined.

(** X22. An ended auction can still take a bid: a call of [placeBid] that
    passed validation before [endAuction] ran and resumes afterwards, its
    payment confirmed, returns its bid and records it; the auction is then
    [ended] with the new bid as highest bid, its amount as current price and
    one bid more counted. *)
Theorem bid_lands_after_endAuction c st pk a :
  validate c st = inr (pk, a) ->
  SolanaService.processBidPayment (call_confirmed c) (call_wallet c)
                                  (call_bidAmount c) = true ->
  exists bid a',
    succeeded (endAuction (call_auctionId c) st) = true /\
    result (resume c (inr (pk, a)) (store (endAuction (call_auctionId c) st)))
      = inr bid /\
    getAuction (call_auctionId c)
      (store (resume c (inr (pk, a)) (store (endAuction (call_auctionId c) st))))
      = Some a' /\
    Auction.status a' = Auction.ended /\
    Auction.highestBid a' = Some bid /\
    Auction.currentPrice a' = call_bidAmount c /\
    Bid.amount bid = call_bidAmount c /\
    Auction.totalBids a' = S (Auction.totalBids a) /\
    getAuctionBids (call_auctionId c)
      (store (resume c (inr (pk, a)) (store (endAuction (call_auctionId c) st))))
      = getAuctionBids (call_auctionId c) st ++ [bid].
Proof.
  unfold validate. intros Hv Hpay.
  apply placeBid_validate_inr in Hv as (_ & Hget & Hs & _ & Hlt).
  unfold resume, placeBid_commit. rewrite Hpay. simpl.
  unfold endAuction, succeeded, getAuction, getAuctionBids. rewrite Hget.
  unfold Auction.is_active. rewrite Hs. simpl.
  rewrite get_set, !get_alter, !String.eqb_refl, Hget. simpl.
  eexists _, _. repeat (split; [reflexivity|]). reflexivity.
Qed.

Lemma bid_lands_after_endAuction_witness :
  exists bid a',
    result (resume offer_3_0 (validate offer_3_0 price_two)
              (store (endAuction "a1" price_two))) = inr bid /\
    getAuction "a1"
      (store (resume offer_3_0 (validate offer_3_0 price_two)
                (store (endAuction "a1" price_two)))) = Some a' /\
    Auction.status a' = Auction.ended /\
    Auction.highestBid a' = Some bid.
Proof.
  destruct (bid_lands_after_endAuction offer_3_0 price_two _ _ eq_refl eq_refl)
    as (bid & a' & _ & H1 & H2 & H3 & H4 & _).
  exists bid, a'. auto.
Defined.
